(** * The accounting calculation engine of [streamlit_app.py]

    A shallow embedding of the calculation routines of the Streamlit
    accounting assistant: [format_currency], the validators
    [validate_positive_number] and [validate_gst_rate], [solve_equation]
    with its summary table, [calculate_and_display_gst], the journal-entry
    handlers, the custom entry form and [display_journal_entry] with its
    table.

    The Python code computes on [float]s (the values of [st.number_input]).
    The routines are embedded once, over an interface [Number] of the
    arithmetic they use, and the interface is instantiated twice:
    - [float_number]: IEEE 754 binary64, the arithmetic the program runs on;
    - [Q_number]: exact rationals, the arithmetic the program approximates.
    Statements that hold for every [Number] hold for the program as it runs.
    Statements that need laws of arithmetic are stated over [Q_number], and
    over [float_number] where they could be derived from the specification
    of the primitive floats ([FloatAxioms] over [SpecFloat]). *)

From Stdlib Require Import ZArith QArith Qabs Qround Lqa Lia Bool List String Ascii.
From Stdlib Require Import Permutation.
From Stdlib Require Import PrimFloat FloatOps SpecFloat FloatAxioms Uint63.
From Stdlib Require DecimalString.
Import ListNotations.

(** ** Numbers *)

Declare Scope num_scope.
Delimit Scope num_scope with num.

(** The operations the program applies to its amounts.  [of_Z] is the value
    of a Python [int] where the program mixes it with floats (the literals
    [0], [1], [2], [100], [100000], [10000000], and the GST rate of the
    select box); [tol] is the float literal [0.01]; [fmt2] is the format
    specification [f"{x:,.2f}"]. *)
Class Number (F : Type) : Type := {
  of_Z : Z -> F;
  tol : F;
  add : F -> F -> F;
  sub : F -> F -> F;
  mul : F -> F -> F;
  div : F -> F -> F;
  abs : F -> F;
  eqb : F -> F -> bool;
  ltb : F -> F -> bool;
  leb : F -> F -> bool;
  fmt2 : F -> string
}.

Infix "+" := add : num_scope.
Infix "-" := sub : num_scope.
Infix "*" := mul : num_scope.
Infix "/" := div : num_scope.
Infix "==" := eqb (at level 70, no associativity) : num_scope.
Infix "<?" := ltb : num_scope.
Infix "<=?" := leb : num_scope.

(** Python's [x != y], [x > y], [x >= y] on numbers. *)
Definition neb {F} `{Number F} (x y : F) : bool := negb (eqb x y).
Definition gtb {F} `{Number F} (x y : F) : bool := ltb y x.
Definition geb {F} `{Number F} (x y : F) : bool := leb y x.

(** Truthiness of a number: [bool(x)] is [x != 0]. *)
Definition truthy {F} `{Number F} (x : F) : bool := neb x (of_Z 0).

(** Truthiness of an optional number: [None] is falsy. *)
Definition otruthy {F} `{Number F} (x : option F) : bool :=
  match x with
  | Some v => truthy v
  | None => false
  end.

(** [a or b] on optional numbers. *)
Definition por {F} `{Number F} (a b : option F) : option F :=
  if otruthy a then a else b.

(** ** Text: decimal rendering and [str.rstrip] *)

Definition digit_char (d : Z) : ascii := ascii_of_nat (48 + Z.to_nat d).

(** Decimal digits of a natural number, most significant first. *)
Definition digits_of (n : Z) : list ascii :=
  list_ascii_of_string (DecimalString.NilZero.string_of_uint (N.to_uint (Z.to_N n))).

(** The thousands separator of the format option [,], on the digits taken
    least significant first: a comma after every third digit that has a
    digit after it. *)
Fixpoint commas (l : list ascii) : list ascii :=
  match l with
  | a :: b :: c :: ((_ :: _) as rest) => a :: b :: c :: ","%char :: commas rest
  | _ => l
  end.

Definition grouped (n : Z) : list ascii := rev (commas (rev (digits_of n))).

(** Rounding to the nearest integer, ties to even: the rounding of the
    [f] presentation type, which rounds the exact value of the float. *)
Definition round_half_even (q : Q) : Z :=
  let f := Qfloor q in
  let r := (q - inject_Z f)%Q in
  match (r ?= 1 # 2)%Q with
  | Lt => f
  | Gt => (f + 1)%Z
  | Eq => if Z.even f then f else (f + 1)%Z
  end.

(** [f"{x:,.2f}"] for a rational [x]. *)
Definition fmt2_Q (x : Q) : string :=
  let n := round_half_even (Qabs x * 100)%Q in
  let body := (grouped (n / 100) ++ "."%char
               :: digit_char ((n mod 100) / 10) :: digit_char (n mod 10) :: nil)%Z%list in
  string_of_list_ascii (if Qlt_le_dec x 0 then "-"%char :: body else body).

(** [s.rstrip(c)] for a one-character argument. *)
Fixpoint drop_while_eq (c : ascii) (l : list ascii) : list ascii :=
  match l with
  | a :: l' => if Ascii.eqb a c then drop_while_eq c l' else l
  | nil => nil
  end.

Definition rstrip (c : ascii) (s : string) : string :=
  string_of_list_ascii (rev (drop_while_eq c (rev (list_ascii_of_string s)))).

(** ** The two arithmetics *)

(** Exact rationals.  Division by zero never reaches [Qdiv]: the embedding
    raises [ZeroDivisionError] first (see [pdiv]). *)
#[export] Instance Q_number : Number Q := {
  of_Z := inject_Z;
  tol := 1 # 100;
  add := Qplus;
  sub := Qminus;
  mul := Qmult;
  div := Qdiv;
  abs := Qabs;
  eqb := Qeq_bool;
  ltb := fun x y => negb (Qle_bool y x);
  leb := Qle_bool;
  fmt2 := fmt2_Q
}.

(** The exact value of a finite binary64 number. *)
Definition SF2Q (x : spec_float) : option Q :=
  match x with
  | S754_zero _ => Some 0%Q
  | S754_finite s m e =>
      let v := match e with
               | Z0 => inject_Z (Zpos m)
               | Zpos p => inject_Z (Zpos m * 2 ^ Zpos p)
               | Zneg p => Zpos m # (2 ^ p)
               end in
      Some (if s then Qopp v else v)
  | _ => None
  end.

Definition float_of_Z (z : Z) : float :=
  if (z <? 0)%Z then PrimFloat.opp (PrimFloat.of_uint63 (Uint63.of_Z (- z)))
  else PrimFloat.of_uint63 (Uint63.of_Z z).

Definition fmt2_float (x : float) : string :=
  match Prim2SF x with
  | S754_zero s => if s then "-0.00" else "0.00"
  | S754_infinity s => if s then "-inf" else "inf"
  | S754_nan => "nan"
  | S754_finite s m e =>
      match SF2Q (S754_finite s m e) with
      | Some q => fmt2_Q q
      | None => "nan"
      end
  end.

(** IEEE 754 binary64, Python's [float].  [tol] is the double nearest to
    0.01. *)
#[export] Instance float_number : Number float := {
  of_Z := float_of_Z;
  tol := 0x1.47ae147ae147bp-7%float;
  add := PrimFloat.add;
  sub := PrimFloat.sub;
  mul := PrimFloat.mul;
  div := PrimFloat.div;
  abs := PrimFloat.abs;
  eqb := PrimFloat.eqb;
  ltb := PrimFloat.ltb;
  leb := PrimFloat.leb;
  fmt2 := fmt2_float
}.

(** ** Accounting equation: [solve_equation] *)

Section EquationSolver.
Context {F : Type} `{Number F}.
Local Open Scope num_scope.

(** [x is not None and x != 0], the test of the list comprehension that
    counts the known values. *)
Definition supplied (x : option F) : bool :=
  match x with
  | Some v => neb v (of_Z 0)
  | None => false
  end.

Definition known_values (assets liabilities capital : option F) : nat :=
  List.length (filter supplied [assets; liabilities; capital]).

(** The dict [solution]: one optional entry per key the function writes. *)
Record solution_dict : Type := {
  sol_assets : option F;             (* 'Assets' *)
  sol_liabilities : option F;        (* 'Liabilities' *)
  sol_original_capital : option F;   (* 'Original Capital' *)
  sol_adjusted_capital : option F    (* 'Adjusted Capital' *)
}.

Definition empty_solution : solution_dict :=
  {| sol_assets := None; sol_liabilities := None;
     sol_original_capital := None; sol_adjusted_capital := None |}.

(** What step 3 reports. *)
Inductive verdict : Type :=
| Verified             (* st.success "Verified: ..." *)
| EquationImbalance.   (* st.error "Error in calculation - equation doesn't balance!" *)

(** What a run that passes the guard leaves behind: the adjusted capital of
    step 1, the dict of step 2, and the report of step 3 ([None] when the
    step is skipped). *)
Record solve_output : Type := {
  adjusted_capital : option F;
  solution : solution_dict;
  verification : option verdict
}.

Inductive solve_result : Type :=
| InsufficientKnownValues   (* st.error "Please provide at least 2 known values ..."; return *)
| Solved (out : solve_output).

(** Step 1, lines 140-152. *)
Definition adjust_capital (capital : option F)
    (drawings additional_capital profit_loss : F) : option F :=
  match capital with
  | Some c => Some (c + additional_capital - drawings + profit_loss)
  | None => None
  end.

(** Step 2, lines 157-178: the [if] / [elif] / [elif] chain with its inner
    tests. *)
Definition apply_equation (assets liabilities capital adjusted : option F)
    (drawings additional_capital profit_loss : F) : solution_dict :=
  match assets with
  | None =>
      match liabilities, adjusted with
      | Some l, Some ac =>
          {| sol_assets := Some (l + ac); sol_liabilities := None;
             sol_original_capital := None; sol_adjusted_capital := None |}
      | _, _ => empty_solution
      end
  | Some a =>
      match liabilities with
      | None =>
          match adjusted with
          | Some ac =>
              {| sol_assets := None; sol_liabilities := Some (a - ac);
                 sol_original_capital := None; sol_adjusted_capital := None |}
          | None => empty_solution
          end
      | Some l =>
          match capital with
          | None =>
              let calculated_capital := a - l in
              {| sol_assets := None; sol_liabilities := None;
                 sol_original_capital :=
                   Some (calculated_capital - additional_capital + drawings - profit_loss);
                 sol_adjusted_capital := Some calculated_capital |}
          | Some _ => empty_solution
          end
      end
  end.

(** Step 3, lines 180-189. *)
Definition verify (final_assets final_liabilities final_capital : option F)
    : option verdict :=
  match final_assets, final_liabilities, final_capital with
  | Some fa, Some fl, Some fc =>
      if truthy fa && truthy fl && truthy fc then
        if abs (fa - (fl + fc)) <? tol then Some Verified
        else Some EquationImbalance
      else None
  | _, _, _ => None
  end.

Definition solve_equation (assets liabilities capital : option F)
    (drawings additional_capital profit_loss : F) : solve_result :=
  if (known_values assets liabilities capital <? 2)%nat then InsufficientKnownValues
  else
    let adjusted := adjust_capital capital drawings additional_capital profit_loss in
    let sol := apply_equation assets liabilities capital adjusted
                 drawings additional_capital profit_loss in
    let final_assets := por assets (sol_assets sol) in
    let final_liabilities := por liabilities (sol_liabilities sol) in
    let final_capital := por adjusted (sol_adjusted_capital sol) in
    Solved {| adjusted_capital := adjusted;
              solution := sol;
              verification := verify final_assets final_liabilities final_capital |}.

End EquationSolver.

(** ** Currency formatting: [format_currency] *)

(** The rupee sign U+20B9, as its three UTF-8 bytes. *)
Definition rupee : string :=
  String (ascii_of_nat 226) (String (ascii_of_nat 130) (String (ascii_of_nat 185) EmptyString)).

(** The argument of [format_currency]: a number, or a value on which
    [float(amount)] raises [ValueError] or [TypeError] ([None], a string
    that is no numeral).  Such a value is not equal to [0]. *)
Inductive py_amount (F : Type) : Type :=
| PyNumber (x : F)
| PyNonNumeric.
Arguments PyNumber {F} x.
Arguments PyNonNumeric {F}.

Section CurrencyFormatter.
Context {F : Type} `{Number F}.
Local Open Scope string_scope.
Local Open Scope num_scope.

Definition zero_rendering (show_symbol : bool) : string :=
  if show_symbol then rupee ++ "0" else "0".

(** [f"{x:,.2f}".rstrip('0').rstrip('.')] *)
Definition fmt_stripped (x : F) : string := rstrip "." (rstrip "0" (fmt2 x)).

Definition format_currency (amount : py_amount F) (show_symbol : bool) : string :=
  match amount with
  | PyNonNumeric => zero_rendering show_symbol      (* the except clause *)
  | PyNumber x =>
      if x == of_Z 0 then zero_rendering show_symbol
      else
        let is_negative := x <? of_Z 0 in
        let amount := abs x in
        let formatted :=
          if geb amount (of_Z 10000000) then
            fmt_stripped (amount / of_Z 10000000) ++ " Cr"
          else if geb amount (of_Z 100000) then
            fmt_stripped (amount / of_Z 100000) ++ " L"
          else fmt_stripped amount in
        let formatted := if show_symbol then rupee ++ formatted else formatted in
        if is_negative then "-" ++ formatted else formatted
  end.

End CurrencyFormatter.

(** ** Exceptions *)

Inductive exn : Type := ZeroDivisionError.

Inductive result (A : Type) : Type :=
| Ok (a : A)
| Raise (e : exn).
Arguments Ok {A} a.
Arguments Raise {A} e.

Definition bind {A B} (r : result A) (k : A -> result B) : result B :=
  match r with
  | Ok a => k a
  | Raise e => Raise e
  end.

Notation "'let*' x ':=' r 'in' k" := (bind r (fun x => k))
  (at level 10, x name, r at level 100, k at level 200).

(** [x / y] where [y] is computed: Python raises on a zero divisor.  (A
    division by the literal [100] or [2] is written [div] directly.) *)
Definition pdiv {F} `{Number F} (x y : F) : result F :=
  if eqb y (of_Z 0) then Raise ZeroDivisionError else Ok (div x y).

(** ** GST: [calculate_and_display_gst] *)

(** [str.strip()] and [str.lower()]. *)
Class StrOps : Type := {
  strip : string -> string;
  lower : string -> string
}.

(** Their restriction to ASCII text: the white space of [str.isspace] below
    128, and the letters [A]-[Z]. *)
Definition ascii_space (c : ascii) : bool :=
  let n := nat_of_ascii c in
  ((9 <=? n) && (n <=? 13) || (28 <=? n) && (n <=? 32))%nat.

Fixpoint lstrip_space (l : list ascii) : list ascii :=
  match l with
  | a :: l' => if ascii_space a then lstrip_space l' else l
  | nil => nil
  end.

Definition ascii_strip (s : string) : string :=
  string_of_list_ascii
    (rev (lstrip_space (rev (lstrip_space (list_ascii_of_string s))))).

Definition ascii_lower_char (c : ascii) : ascii :=
  let n := nat_of_ascii c in
  if ((65 <=? n) && (n <=? 90))%nat then ascii_of_nat (n + 32) else c.

Fixpoint ascii_lower (s : string) : string :=
  match s with
  | EmptyString => EmptyString
  | String c s' => String (ascii_lower_char c) (ascii_lower s')
  end.

#[export] Instance ascii_str_ops : StrOps := {
  strip := ascii_strip;
  lower := ascii_lower
}.

(** Truthiness of a string: not empty. *)
Definition nonempty (s : string) : bool :=
  match s with
  | EmptyString => false
  | String _ _ => true
  end.

Section TaxSplitter.
Context {F : Type} `{Number F} `{StrOps}.
Local Open Scope num_scope.

(** Lines 888-893. *)
Definition determine_interstate (transaction_type from_state to_state : string) : bool :=
  if nonempty from_state && nonempty to_state
     && negb (String.eqb (lower (strip from_state)) (lower (strip to_state)))
  then true
  else if String.eqb transaction_type "Interstate (Between States)" then true
  else false.

(** The values the function computes and shows. *)
Record gst_result : Type := {
  is_interstate : bool;
  basic_amount : F;
  gst_amount : F;
  total_amount : F;
  cgst : F;
  sgst : F;
  igst : F;
  journal_entries_shown : bool
}.

(** Lines 895-903. *)
Definition gst_amounts (amount : F) (gst_rate : Z) (amount_type : string)
    : result (F * F) :=
  if String.eqb amount_type "Inclusive of GST" then
    let* basic := pdiv amount (of_Z 1 + of_Z gst_rate / of_Z 100) in
    Ok (basic, amount - basic)
  else
    Ok (amount, amount * (of_Z gst_rate / of_Z 100)).

(** Lines 929-945: [(cgst, sgst, igst)]. *)
Definition gst_split (interstate : bool) (gst : F) : F * F * F :=
  if interstate then (of_Z 0, of_Z 0, gst)
  else (gst / of_Z 2, gst / of_Z 2, of_Z 0).

Definition calculate_and_display_gst (amount : F) (gst_rate : Z)
    (amount_type transaction_type from_state to_state : string)
    (reverse_charge : bool) : result gst_result :=
  let interstate := determine_interstate transaction_type from_state to_state in
  let* bg := gst_amounts amount gst_rate amount_type in
  let '(basic, gst) := bg in
  let '(c, s, i) := gst_split interstate gst in
  Ok {| is_interstate := interstate;
        basic_amount := basic;
        gst_amount := gst;
        total_amount := basic + gst;
        cgst := c; sgst := s; igst := i;
        journal_entries_shown := negb reverse_charge |}.

End TaxSplitter.

(** ** Journal entries *)

(** One line of a journal entry: the dict with the keys ['Account'],
    ['Dr_Amount'] and ['Cr_Amount']. *)
Record posting (F : Type) : Type := {
  Account : string;
  Dr_Amount : F;
  Cr_Amount : F
}.
Arguments Account {F} p.
Arguments Dr_Amount {F} p.
Arguments Cr_Amount {F} p.

(** The widgets the handlers read, by the names of the variables that hold
    their values. *)
Record widgets : Type := {
  cash_bank : string;
  transaction_nature : string;
  from_account : string;
  to_account : string;
  purchase_type : string;
  sales_type : string;
  goods_type : string;
  supplier : string;
  customer : string;
  include_gst : bool;
  gst_rate : Z;
  expense_type : string;
  payment_method : string;
  creditor_name : string;
  income_type : string;
  receipt_method : string;
  capital_type : string;
  asset_type : string
}.

(** [s or default] on strings. *)
Definition str_or (s default : string) : string :=
  if nonempty s then s else default.

Section JournalBuilder.
Context {F : Type} `{Number F}.
Local Open Scope string_scope.
Local Open Scope num_scope.

Definition debit (account : string) (amount : F) : posting F :=
  {| Account := account; Dr_Amount := amount; Cr_Amount := of_Z 0 |}.

Definition credit (account : string) (amount : F) : posting F :=
  {| Account := account; Dr_Amount := of_Z 0; Cr_Amount := amount |}.

(** Lines 370-397.  In the payment branch [to_account] is always bound, so
    the fallback ["Expense"] is never taken. *)
Definition handle_cash_bank_transaction (w : widgets) (amount : F)
    : result (list (posting F)) :=
  if String.eqb (transaction_nature w) "Receipt" then
    Ok [debit (cash_bank w) amount; credit ("To " ++ from_account w) amount]
  else
    Ok [debit (to_account w) amount; credit ("To " ++ cash_bank w) amount].

(** Lines 414-451. *)
Definition handle_purchase_transaction (w : widgets) (amount : F)
    : result (list (posting F)) :=
  let* entries :=
    if include_gst w then
      let* basic_amount := pdiv amount (of_Z 1 + of_Z (gst_rate w) / of_Z 100) in
      let gst_amount := amount - basic_amount in
      Ok [debit (goods_type w ++ " Purchase") basic_amount;
          debit "Input GST" gst_amount]
    else
      Ok [debit (goods_type w ++ " Purchase") amount] in
  if String.eqb (purchase_type w) "Credit Purchase" then
    Ok (entries ++ [credit ("To " ++ str_or (supplier w) "Creditors") amount])%list
  else
    Ok (entries ++ [credit "To Cash/Bank" amount])%list.

(** Lines 468-505. *)
Definition handle_sales_transaction (w : widgets) (amount : F)
    : result (list (posting F)) :=
  let entries :=
    if String.eqb (sales_type w) "Credit Sales" then
      [debit (str_or (customer w) "Debtors") amount]
    else
      [debit "Cash/Bank" amount] in
  if include_gst w then
    let* basic_amount := pdiv amount (of_Z 1 + of_Z (gst_rate w) / of_Z 100) in
    let gst_amount := amount - basic_amount in
    Ok (entries ++ [credit ("To " ++ goods_type w ++ " Sales") basic_amount;
                    credit "To Output GST" gst_amount])%list
  else
    Ok (entries ++ [credit ("To " ++ goods_type w ++ " Sales") amount])%list.

(** Lines 523-545. *)
Definition handle_expense_transaction (w : widgets) (amount : F)
    : result (list (posting F)) :=
  let entries := [debit (expense_type w ++ " Expense") amount] in
  if String.eqb (payment_method w) "Credit" then
    Ok (entries ++ [credit ("To " ++ str_or (creditor_name w) "Creditors") amount])%list
  else
    Ok (entries ++ [credit ("To " ++ payment_method w) amount])%list.

(** Lines 561-576. *)
Definition handle_income_transaction (w : widgets) (amount : F)
    : result (list (posting F)) :=
  Ok [debit (receipt_method w) amount; credit ("To " ++ income_type w) amount].

(** Lines 592-618. *)
Definition handle_capital_transaction (w : widgets) (amount : F)
    : result (list (posting F)) :=
  if String.eqb (capital_type w) "Capital Introduced"
     || String.eqb (capital_type w) "Additional Capital" then
    Ok [debit (asset_type w) amount; credit "To Capital" amount]
  else
    Ok [debit "Drawings" amount; credit ("To " ++ asset_type w) amount].

(** Lines 341-355: the dispatch on the transaction type.  [None]: no
    handler is called. *)
Definition create_predefined_entry (transaction_type : string) (w : widgets)
    (amount : F) : option (result (list (posting F))) :=
  if String.eqb transaction_type "Cash/Bank Transaction" then
    Some (handle_cash_bank_transaction w amount)
  else if String.eqb transaction_type "Purchase Transaction" then
    Some (handle_purchase_transaction w amount)
  else if String.eqb transaction_type "Sales Transaction" then
    Some (handle_sales_transaction w amount)
  else if String.eqb transaction_type "Expense Transaction" then
    Some (handle_expense_transaction w amount)
  else if String.eqb transaction_type "Income Transaction" then
    Some (handle_income_transaction w amount)
  else if String.eqb transaction_type "Capital Transaction" then
    Some (handle_capital_transaction w amount)
  else None.

(** [total = 0; for e in entries: total += e[key]], also what
    [sum(e[key] for e in entries)] computes. *)
Definition total (key : posting F -> F) (entries : list (posting F)) : F :=
  fold_left (fun acc e => acc + key e) entries (of_Z 0).

(** [abs(total_dr - total_cr) < 0.01] *)
Definition balanced (total_dr total_cr : F) : bool :=
  abs (total_dr - total_cr) <? tol.

(** What [display_journal_entry] shows below the table. *)
Inductive balance_report : Type :=
| Balanced       (* st.success "Journal Entry is Balanced ..." *)
| NotBalanced.   (* st.error "Journal Entry is NOT Balanced ..." *)

(** Lines 686-732: the postings shown (the rows of the table, in order),
    the totals row and the verification. *)
Record journal_display : Type := {
  shown : list (posting F);
  total_dr : F;
  total_cr : F;
  report : balance_report
}.

Definition display_journal_entry (entries : list (posting F)) : journal_display :=
  let dr := total (@Dr_Amount F) entries in
  let cr := total (@Cr_Amount F) entries in
  {| shown := entries;
     total_dr := dr;
     total_cr := cr;
     report := if balanced dr cr then Balanced else NotBalanced |}.

(** *** The custom entry, lines 620-684

    [st.session_state.custom_entries] is the state; each button is an
    event. *)
Inductive custom_event : Type :=
| AddEntry (account_name entry_type : string) (entry_amount : F)
| DeleteEntry (i : nat)
| GenerateCustomEntry.

Inductive custom_output : Type :=
| Nothing
| Added                                  (* st.success "Added ..." *)
| Deleted
| Displayed (d : journal_display)        (* display_journal_entry(...) *)
| Unbalanced.                            (* st.error "Please ensure total debits equal total credits" *)

(** [l.pop(i)] for [0 <= i < len(l)]. *)
Fixpoint pop {A} (i : nat) (l : list A) : list A :=
  match l, i with
  | nil, _ => nil
  | _ :: l', O => l'
  | a :: l', S i' => a :: pop i' l'
  end.

(** One run of [create_custom_journal_entry] with at most one button
    pressed.  The delete and generate buttons are drawn only while the
    list of entries is not empty. *)
Definition custom_step (custom_entries : list (posting F)) (ev : custom_event)
    : list (posting F) * custom_output :=
  match ev with
  | AddEntry account_name entry_type entry_amount =>
      if nonempty account_name && gtb entry_amount (of_Z 0) then
        let entry :=
          {| Account := account_name;
             Dr_Amount := if String.eqb entry_type "Debit" then entry_amount else of_Z 0;
             Cr_Amount := if String.eqb entry_type "Credit" then entry_amount else of_Z 0 |} in
        ((custom_entries ++ [entry])%list, Added)
      else (custom_entries, Nothing)
  | DeleteEntry i =>
      if (i <? List.length custom_entries)%nat then (pop i custom_entries, Deleted)
      else (custom_entries, Nothing)
  | GenerateCustomEntry =>
      match custom_entries with
      | nil => (custom_entries, Nothing)
      | _ :: _ =>
          let dr := total (@Dr_Amount F) custom_entries in
          let cr := total (@Cr_Amount F) custom_entries in
          if balanced dr cr then
            (nil, Displayed (display_journal_entry custom_entries))
          else (custom_entries, Unbalanced)
      end
  end.

End JournalBuilder.

(** ** Vocabulary of the statements *)

Local Open Scope string_scope.

(** A term of the equation left empty in its number input. *)
Definition absent {F} (x : option F) : bool :=
  match x with
  | None => true
  | Some _ => false
  end.

Definition absent_count {F} (assets liabilities capital : option F) : nat :=
  List.length (filter absent [assets; liabilities; capital]).

(** The rates of the GST schedule, in percent. *)
Definition legal_rates : list Z := [0; 5; 12; 18; 28]%Z.

(** The rates offered for a purchase or a sale with GST. *)
Definition entry_rates : list Z := [5; 12; 18; 28]%Z.

(** The amounts of a GST result follow the formulas of the amount type. *)
Definition tax_formulas {F} `{Number F} (amount : F) (rate : Z)
    (amount_type : string) (r : gst_result) : Prop :=
  (if String.eqb amount_type "Inclusive of GST" then
     basic_amount r = (amount / (of_Z 1 + of_Z rate / of_Z 100))%num
     /\ gst_amount r = (amount - basic_amount r)%num
   else
     basic_amount r = amount
     /\ gst_amount r = (amount * (of_Z rate / of_Z 100))%num)
  /\ total_amount r = (basic_amount r + gst_amount r)%num.


(** A posting with exactly one of its two amounts not zero. *)
Definition one_sided {F} `{Number F} (p : posting F) : bool :=
  xorb (truthy (Dr_Amount p)) (truthy (Cr_Amount p)).

(** The transaction types with a handler of their own. *)
Definition predefined_types : list string :=
  ["Cash/Bank Transaction"; "Purchase Transaction"; "Sales Transaction";
   "Expense Transaction"; "Income Transaction"; "Capital Transaction"]%string.

(** A posting list as the claims want it: every posting one-sided, the
    totals of debits and credits equal, and reported as balanced. *)
Definition entry_ok {F} `{Number F} (entries : list (posting F)) : Prop :=
  forallb one_sided entries = true
  /\ eqb (total Dr_Amount entries) (total Cr_Amount entries) = true
  /\ report (display_journal_entry entries) = Balanced.

(** A handler that raises nothing and builds such a list. *)
Definition handler_ok {F} `{Number F} (r : result (list (posting F))) : Prop :=
  exists entries, r = Ok entries /\ entry_ok entries.

(** The run divides: a purchase or a sale with GST included. *)
Definition uses_gst (transaction_type : string) (w : widgets) : bool :=
  include_gst w
  && (String.eqb transaction_type "Purchase Transaction"
      || String.eqb transaction_type "Sales Transaction").

(** The binary64 number 2^1023, about 8.99e307. *)
Definition huge : float := 0x1p1023%float.

(** A binary64 number that is neither an infinity nor a NaN. *)
Definition finite (x : float) : bool :=
  match Prim2SF x with
  | S754_zero _ | S754_finite _ _ _ => true
  | _ => false
  end.

(** The widgets of a credit purchase of goods with GST at 18%. *)
Definition purchase_widgets : widgets :=
  {| cash_bank := "Cash"; transaction_nature := "Receipt"; from_account := "Sales";
     to_account := "Rent"; purchase_type := "Credit Purchase"; sales_type := "Cash Sales";
     goods_type := "Goods"; supplier := ""; customer := ""; include_gst := true;
     gst_rate := 18; expense_type := "Rent"; payment_method := "Cash";
     creditor_name := ""; income_type := "Interest Income"; receipt_method := "Bank";
     capital_type := "Drawings"; asset_type := "Cash" |}.




(** ** Input validators: [validate_positive_number], [validate_gst_rate] *)

(** The cross mark U+274C that starts every error message, as its three
    UTF-8 bytes. *)
Definition cross_mark : string :=
  String (ascii_of_nat 226) (String (ascii_of_nat 157) (String (ascii_of_nat 140) EmptyString)).

(** [str(n)] for an [int]. *)
Definition str_int (n : Z) : string :=
  if (n <? 0)%Z then String "-"%char (string_of_list_ascii (digits_of (- n)))
  else string_of_list_ascii (digits_of n).

(** [sep.join(l)] *)
Fixpoint join (sep : string) (l : list string) : string :=
  match l with
  | nil => EmptyString
  | a :: nil => a
  | a :: l' => (a ++ sep ++ join sep l')%string
  end.

(** [valid_rates], line 76. *)
Definition valid_rates : list Z := [0; 5; 12; 18; 28]%Z.

Section Validators.
Context {F : Type} `{Number F}.
Local Open Scope string_scope.
Local Open Scope num_scope.

(** [x in l] for a float [x] and a list of [int]s: equal to some element. *)
Definition py_in (x : F) (l : list Z) : bool := existsb (fun k => x == of_Z k) l.

(** Lines 47-63.  The argument is the outcome of [float(value)]: a number,
    or [PyNonNumeric] when the conversion raises [ValueError] or
    [TypeError], the two exceptions the function catches (an [int] too
    large for a float raises [OverflowError], which it does not catch and
    which is not modelled). *)
Definition validate_positive_number (value : py_amount F) (field_name : string)
    (allow_zero : bool) : bool * string :=
  match value with
  | PyNonNumeric => (false, cross_mark ++ " " ++ field_name ++ " must be a valid number")
  | PyNumber num_value =>
      if num_value <? of_Z 0 then
        (false, cross_mark ++ " " ++ field_name ++ " cannot be negative")
      else if negb allow_zero && (num_value == of_Z 0) then
        (false, cross_mark ++ " " ++ field_name ++ " must be greater than zero")
      else (true, "")
  end.

(** Lines 65-83. *)
Definition validate_gst_rate (rate : py_amount F) : bool * string :=
  match rate with
  | PyNonNumeric => (false, cross_mark ++ " GST rate must be a valid number")
  | PyNumber rate =>
      if rate <? of_Z 0 then (false, cross_mark ++ " GST rate cannot be negative")
      else if gtb rate (of_Z 28) then (false, cross_mark ++ " GST rate cannot exceed 28%")
      else if negb (py_in rate valid_rates) then
        (false, cross_mark ++ " Invalid GST rate. Valid rates are: "
                ++ join ", " (map str_int valid_rates) ++ "%")
      else (true, "")
  end.

End Validators.

(** ** The summary table of the solver: [create_equation_summary_table] *)

(** A subscript [d[key]] may raise [KeyError]. *)
Inductive subscript (A : Type) : Type :=
| Item (a : A)
| KeyError (key : string).
Arguments Item {A} a.
Arguments KeyError {A} key.

Definition subscript_bind {A B} (r : subscript A) (k : A -> subscript B) : subscript B :=
  match r with
  | Item a => k a
  | KeyError key => KeyError key
  end.

Notation "'let+' x ':=' r 'in' k" := (subscript_bind r (fun x => k))
  (at level 10, x name, r at level 100, k at level 200).

(** One row of the table: the dict with the keys ['Component'],
    ['Amount (₹)'] and ['Status']. *)
Record summary_row : Type := {
  Component : string;
  Amount : string;
  Status : string
}.

Section SummaryTable.
Context {F : Type} `{Number F}.
Local Open Scope string_scope.

(** [key in solution] *)
Definition contains (entry : option F) : bool :=
  match entry with
  | Some _ => true
  | None => false
  end.

(** [solution[key]] *)
Definition getitem (entry : option F) (key : string) : subscript F :=
  match entry with
  | Some v => Item v
  | None => KeyError key
  end.

(** [x or solution[key]]: the subscript is evaluated only when [x] is
    falsy. *)
Definition or_getitem (x entry : option F) (key : string) : subscript F :=
  match x with
  | Some v => if truthy v then Item v else getitem entry key
  | None => getitem entry key
  end.

(** ['Given' if x else 'Calculated'] *)
Definition given_or_calculated (x : option F) : string :=
  if otruthy x then "Given" else "Calculated".

(** Lines 196-230: the rows appended to [summary_data], in order. *)
Definition create_equation_summary_table (assets liabilities capital : option F)
    (solution : solution_dict) (adjusted_capital : option F)
    : subscript (list summary_row) :=
  let+ assets_rows :=
    if otruthy assets || contains (sol_assets solution) then
      let+ v := or_getitem assets (sol_assets solution) "Assets" in
      Item [{| Component := "Assets";
               Amount := format_currency (PyNumber v) true;
               Status := given_or_calculated assets |}]
    else Item [] in
  let+ liabilities_rows :=
    if otruthy liabilities || contains (sol_liabilities solution) then
      let+ v := or_getitem liabilities (sol_liabilities solution) "Liabilities" in
      Item [{| Component := "Liabilities";
               Amount := format_currency (PyNumber v) true;
               Status := given_or_calculated liabilities |}]
    else Item [] in
  let+ capital_rows :=
    if otruthy capital || contains (sol_original_capital solution) then
      let+ v := or_getitem capital (sol_original_capital solution) "Original Capital" in
      Item [{| Component := "Capital (Original)";
               Amount := format_currency (PyNumber v) true;
               Status := given_or_calculated capital |}]
    else Item [] in
  let+ adjusted_rows :=
    if otruthy adjusted_capital || contains (sol_adjusted_capital solution) then
      let+ v := or_getitem adjusted_capital (sol_adjusted_capital solution)
                  "Adjusted Capital" in
      Item [{| Component := "Capital (Adjusted)";
               Amount := format_currency (PyNumber v) true;
               Status := "Calculated" |}]
    else Item [] in
  Item (assets_rows ++ liabilities_rows ++ capital_rows ++ adjusted_rows)%list.

(** The table a run of [solve_equation] ends with (line 191); [None] when
    the run returns at the guard, before any table. *)
Definition solve_equation_summary (assets liabilities capital : option F)
    (drawings additional_capital profit_loss : F)
    : option (subscript (list summary_row)) :=
  match solve_equation assets liabilities capital drawings additional_capital
          profit_loss with
  | InsufficientKnownValues => None
  | Solved out =>
      Some (create_equation_summary_table assets liabilities capital
              (solution out) (adjusted_capital out))
  end.

End SummaryTable.

(** ** The journal table of [display_journal_entry] *)

(** One row of the table: the dict with the keys ['Date'], ['Particulars'],
    ['Dr Amount (₹)'] and ['Cr Amount (₹)']. *)
Record journal_row : Type := {
  Date : string;
  Particulars : string;
  Dr_text : string;
  Cr_text : string
}.

Section JournalTable.
Context {F : Type} `{Number F}.
Local Open Scope string_scope.

(** [format_currency(x) if x > 0 else ''] *)
Definition amount_cell (x : F) : string :=
  if gtb x (of_Z 0) then format_currency (PyNumber x) true else "".

Definition is_empty {A} (l : list A) : bool :=
  match l with
  | nil => true
  | _ :: _ => false
  end.

(** Lines 695-704: the loop over the entries.  [date_text] is the value of
    [entry_date.strftime('%d-%m-%Y')]; it is shown while [journal_data] is
    still empty. *)
Definition journal_rows (date_text : string) (entries : list (posting F))
    : list journal_row :=
  fold_left
    (fun journal_data entry =>
       journal_data ++ [{| Date := if is_empty journal_data then date_text else "";
                           Particulars := Account entry;
                           Dr_text := amount_cell (Dr_Amount entry);
                           Cr_text := amount_cell (Cr_Amount entry) |}])%list
    entries [].

(** Lines 686-726: the rows of the table: the entries, the narration, the
    totals. *)
Definition journal_table (date_text : string) (entries : list (posting F))
    (narration : string) : list journal_row :=
  (journal_rows date_text entries
   ++ [{| Date := ""; Particulars := "(" ++ narration ++ ")";
          Dr_text := ""; Cr_text := "" |};
       {| Date := ""; Particulars := "**TOTAL**";
          Dr_text := "**" ++ format_currency (PyNumber (total Dr_Amount entries)) true ++ "**";
          Cr_text := "**" ++ format_currency (PyNumber (total Cr_Amount entries)) true ++ "**" |}])%list.

(** *** A session of the custom entry form *)

(** The list [st.session_state.custom_entries] after a series of runs, one
    button pressed in each. *)
Definition custom_session (entries : list (posting F)) (events : list (custom_event (F := F)))
    : list (posting F) :=
  fold_left (fun custom_entries ev => fst (custom_step custom_entries ev)) events entries.

End JournalTable.

(** ** Vocabulary of the further statements *)

(** An event of the form as the widgets can produce it: the entry type is
    one of the two options of its select box. *)
Definition from_select_box {F} (ev : custom_event (F := F)) : Prop :=
  match ev with
  | AddEntry _ entry_type _ => entry_type = "Debit" \/ entry_type = "Credit"
  | _ => True
  end.

(** A posting as the form builds it: a named account, and an amount above
    zero on one side with the literal [0] on the other. *)
Definition form_posting {F} `{Number F} (p : posting F) : Prop :=
  nonempty (Account p) = true
  /\ (gtb (Dr_Amount p) (of_Z 0) = true /\ Cr_Amount p = of_Z 0
      \/ Dr_Amount p = of_Z 0 /\ gtb (Cr_Amount p) (of_Z 0) = true).


(** A not-a-number of binary64. *)
Definition is_nan (x : float) : bool :=
  match Prim2SF x with
  | S754_nan => true
  | _ => false
  end.

(** The rows of the summary table in the statements: a row for a term
    given as [x], shown when [x] is not zero, and the row of the adjusted
    capital, shown when it is not zero. *)
Definition given_line {F} `{Number F} (component : string) (x : F) : summary_row :=
  {| Component := component; Amount := format_currency (PyNumber x) true;
     Status := "Given" |}.

Definition given_row {F} `{Number F} (component : string) (x : F) : list summary_row :=
  if truthy x then [given_line component x] else [].

Definition calculated_row {F} `{Number F} (component : string) (x : F) : summary_row :=
  {| Component := component; Amount := format_currency (PyNumber x) true;
     Status := "Calculated" |}.

Definition adjusted_row {F} `{Number F} (adjusted : F) : list summary_row :=
  if truthy adjusted then [calculated_row "Capital (Adjusted)" adjusted] else [].

(** The row of the journal table for one posting, with the text of its
    date cell. *)
Definition journal_line {F} `{Number F} (date_cell : string) (entry : posting F)
    : journal_row :=
  {| Date := date_cell; Particulars := Account entry;
     Dr_text := amount_cell (Dr_Amount entry);
     Cr_text := amount_cell (Cr_Amount entry) |}.

(** The two kinds of line of a journal entry: a debit line has the literal
    [0] as its credit; a credit line has the literal [0] as its debit and
    an account named ["To ..."]. *)
Definition debit_line {F} `{Number F} (p : posting F) : Prop :=
  Cr_Amount p = of_Z 0.

Definition credit_line {F} `{Number F} (p : posting F) : Prop :=
  Dr_Amount p = of_Z 0 /\ String.prefix "To " (Account p) = true.

(** * Properties *)

(** ** Exact arithmetic: the comparisons of [Q_number] as propositions *)

Lemma Q_eqb_true (x y : Q) : eqb x y = true <-> (x == y)%Q.
Proof. apply Qeq_bool_iff. Qed.

Lemma Q_ltb_true (x y : Q) : ltb x y = true <-> (x < y)%Q.
Proof.
  cbn. rewrite negb_true_iff. split; intro Hlt.
  - apply Qnot_le_lt. intro Hle.
    rewrite (proj2 (Qle_bool_iff y x) Hle) in Hlt. discriminate.
  - destruct (Qle_bool y x) eqn:E; [|reflexivity].
    exfalso. apply (Qlt_not_le _ _ Hlt), Qle_bool_iff, E.
Qed.


Lemma Q_truthy (x : Q) : truthy x = true <-> ~ (x == 0)%Q.
Proof.
  unfold truthy, neb. rewrite negb_true_iff. cbn.
  split.
  - intros E Hx. rewrite (proj2 (Qeq_bool_iff x (inject_Z 0)) Hx) in E. discriminate.
  - intro Hx. destruct (Qeq_bool x (inject_Z 0)) eqn:E; [|reflexivity].
    exfalso. apply Hx, Qeq_bool_iff, E.
Qed.

(** [|x - y| < 0.01] holds in particular when [x] and [y] are equal. *)
Lemma Q_within_tol_of_eq (x y : Q) : (x == y)%Q -> ltb (abs (sub x y)) tol = true.
Proof.
  intro E. apply Q_ltb_true.
  change (Qabs (x - y) < 1 # 100)%Q.
  assert (Hz : (x - y == 0)%Q) by lra.
  rewrite Hz. reflexivity.
Qed.

(** ** Binary64 arithmetic

    The few laws of binary64 the journal needs, from the specification of
    the primitive floats. *)

Lemma Prim2SF_zero : Prim2SF (of_Z 0) = S754_zero false.
Proof. reflexivity. Qed.

Lemma float_sf_eq (x y : float) : Prim2SF x = Prim2SF y -> x = y.
Proof. apply Prim2SF_inj. Qed.

(** A float above zero is a positive finite number or plus infinity. *)
Lemma float_positive_cases (x : float) :
  ltb (of_Z 0) x = true ->
  (exists m e, Prim2SF x = S754_finite false m e) \/ Prim2SF x = S754_infinity false.
Proof.
  cbn [ltb float_number]. rewrite FloatAxioms.ltb_spec, Prim2SF_zero.
  destruct (Prim2SF x) as [s|s| |s m e]; cbn; try discriminate.
  - destruct s; [discriminate|]. auto.
  - destruct s; [discriminate|]. intros _. left. exists m, e. reflexivity.
Qed.

Lemma float_positive_truthy (x : float) : ltb (of_Z 0) x = true -> truthy x = true.
Proof.
  intro Hx. unfold truthy, neb. cbn [eqb float_number].
  rewrite FloatAxioms.eqb_spec, Prim2SF_zero.
  destruct (float_positive_cases x Hx) as [(m & e & ->)| ->]; reflexivity.
Qed.

Lemma float_add_zero_l (x : float) : ltb (of_Z 0) x = true -> add (of_Z 0) x = x.
Proof.
  intro Hx. apply float_sf_eq. cbn [add float_number].
  rewrite FloatAxioms.add_spec, Prim2SF_zero.
  destruct (float_positive_cases x Hx) as [(m & e & ->)| ->]; reflexivity.
Qed.

Lemma float_add_zero_r (x : float) : ltb (of_Z 0) x = true -> add x (of_Z 0) = x.
Proof.
  intro Hx. apply float_sf_eq. cbn [add float_number].
  rewrite FloatAxioms.add_spec, Prim2SF_zero.
  destruct (float_positive_cases x Hx) as [(m & e & ->)| ->]; reflexivity.
Qed.

Lemma float_sub_self (x : float) : finite x = true -> sub x x = of_Z 0.
Proof.
  unfold finite. intro Hx. apply float_sf_eq. cbn [sub float_number].
  rewrite FloatAxioms.sub_spec, Prim2SF_zero.
  destruct (Prim2SF x) as [s|s| |s m e]; try discriminate.
  - destruct s; reflexivity.
  - unfold SF64sub, SFsub. rewrite Z.sub_diag. reflexivity.
Qed.

Lemma float_within_tol_self (x : float) : finite x = true -> balanced x x = true.
Proof.
  intro Hx. unfold balanced. rewrite (float_sub_self x Hx). reflexivity.
Qed.

Lemma float_eqb_refl (x : float) : ltb (of_Z 0) x = true -> eqb x x = true.
Proof.
  intro Hx. cbn [eqb float_number]. rewrite FloatAxioms.eqb_spec.
  destruct (float_positive_cases x Hx) as [(m & e & ->)| ->]; [|reflexivity].
  unfold SFeqb, SFcompare. rewrite Z.compare_refl.
  change (Pos.compare_cont Eq m m) with (Pos.compare m m).
  rewrite Pos.compare_refl. reflexivity.
Qed.

Lemma float_balanced_of_eqb (x y : float) :
  eqb x y = true -> finite x = true -> balanced x y = true.
Proof.
  cbn [eqb float_number]. rewrite FloatAxioms.eqb_spec. unfold finite.
  intros E Hx.
  destruct (Prim2SF x) as [sx|sx| |sx mx ex] eqn:Ex; try discriminate.
  - destruct (Prim2SF y) as [sy|sy| |sy my ey] eqn:Ey; try discriminate;
      try (destruct sy; discriminate).
    assert (Ha : abs (sub x y) = of_Z 0).
    { apply float_sf_eq. cbn [abs sub float_number].
      rewrite FloatAxioms.abs_spec, FloatAxioms.sub_spec, Ex, Ey, Prim2SF_zero.
      destruct sx, sy; reflexivity. }
    unfold balanced. rewrite Ha. reflexivity.
  - destruct (Prim2SF y) as [sy|sy| |sy my ey] eqn:Ey; try discriminate;
      try (destruct sx; discriminate); try (destruct sy; discriminate).
    assert (Exy : x = y).
    { apply float_sf_eq. rewrite Ex, Ey.
      unfold SFeqb, SFcompare in E.
      destruct sx, sy; try discriminate;
        destruct (Z.compare_spec ex ey) as [He|He|He]; try discriminate;
        destruct (Pos.compare_cont Eq mx my) eqn:Em; try discriminate;
        apply Pos.compare_eq in Em; subst; reflexivity. }
    subst y. apply float_within_tol_self. unfold finite. rewrite Ex. reflexivity.
Qed.

(** Rounding a mantissa that is already canonical changes nothing. *)
Lemma round_canonical (s : bool) (m : positive) (e : Z) :
  bounded prec emax m e = true ->
  binary_round_aux prec emax s (Zpos m) e loc_Exact = S754_finite s m e.
Proof.
  unfold bounded, canonical_mantissa. intro Hb.
  apply andb_true_iff in Hb. destruct Hb as [Hc He].
  apply Z.eqb_eq in Hc.
  unfold binary_round_aux, shr_fexp. cbn [Zdigits2 shr_record_of_loc].
  rewrite Hc, Z.sub_diag. cbn [shr shr_m loc_of_shr_record round_nearest_even].
  cbn [Zdigits2 shr_record_of_loc]. rewrite Hc, Z.sub_diag. cbn [shr shr_m].
  rewrite He. reflexivity.
Qed.

Lemma float_one : Prim2SF (of_Z 1) = S754_finite false 4503599627370496 (-52).
Proof. reflexivity. Qed.

Lemma div_eucl_exact (a b : Z) : (0 < b)%Z -> Z.div_eucl (a * b) b = (a, 0%Z).
Proof.
  intro Hb.
  assert (E : Z.div_eucl (a * b) b = ((a * b) / b, (a * b) mod b)%Z).
  { unfold Z.div, Z.modulo. destruct (Z.div_eucl (a * b) b). reflexivity. }
  rewrite E, Z.div_mul, Z.mod_mul by lia. reflexivity.
Qed.

(** Dividing a finite number by 1 gives the number. *)
Lemma SFdiv_one (s : bool) (m : positive) (e : Z) :
  bounded prec emax m e = true ->
  SF64div (S754_finite s m e) (S754_finite false 4503599627370496 (-52))
  = S754_finite s m e.
Proof.
  intro Hb. pose proof Hb as Hb'.
  unfold bounded, canonical_mantissa in Hb'.
  apply andb_true_iff in Hb'. destruct Hb' as [Hc He].
  apply Z.eqb_eq in Hc. apply Z.leb_le in He.
  unfold SF64div, SFdiv, SFdiv_core_binary. rewrite xorb_false_r.
  cbn [Zdigits2]. change (Z.pos (digits2_pos 4503599627370496)) with 53%Z.
  unfold SpecFloat.fexp, SpecFloat.emin in *.
  change prec with 53%Z in *. change emax with 1024%Z in *.
  set (d := Z.pos (digits2_pos m)) in *.
  assert (Hd : (1 <= d)%Z) by (unfold d; lia).
  destruct (Z.eq_dec e (-1074)) as [Ee|Ee].
  - (* the quotient keeps the exponent *)
    replace (Z.min (Z.max (d + e - (53 + -52) - 53) (3 - 1024 - 53)) (e - -52))
      with e by lia.
    replace (e - -52 - e)%Z with 52%Z by lia.
    rewrite Z.shiftl_mul_pow2 by lia. change (2 ^ 52)%Z with 4503599627370496%Z.
    rewrite (div_eucl_exact (Z.pos m) 4503599627370496) by reflexivity.
    cbn [new_location]. apply round_canonical. exact Hb.
  - replace (Z.min (Z.max (d + e - (53 + -52) - 53) (3 - 1024 - 53)) (e - -52))
      with (e - 1)%Z by lia.
    replace (e - -52 - (e - 1))%Z with 53%Z by lia.
    rewrite Z.shiftl_mul_pow2 by lia.
    replace (Z.pos m * 2 ^ 53)%Z with (Z.pos (xO m) * 4503599627370496)%Z
      by (change (2 ^ 53)%Z with (2 * 4503599627370496)%Z; lia).
    rewrite (div_eucl_exact (Z.pos (xO m)) 4503599627370496) by reflexivity.
    change (new_location 4503599627370496 0) with loc_Exact.
    unfold binary_round_aux, shr_fexp. cbn [Zdigits2 digits2_pos shr_record_of_loc].
    unfold SpecFloat.fexp, SpecFloat.emin.
    change prec with 53%Z. change emax with 1024%Z. fold d.
    replace (Z.max (Z.pos (Pos.succ (digits2_pos m)) + (e - 1) - 53) (3 - 1024 - 53) - (e - 1))%Z
      with 1%Z by (rewrite Pos2Z.inj_succ; fold d; lia).
    cbn [shr iter_pos shr_1 shr_m loc_of_shr_record round_nearest_even orb].
    replace (e - 1 + 1)%Z with e by lia.
    cbn [Zdigits2 shr_record_of_loc]. fold d.
    replace (Z.max (d + e - 53) (3 - 1024 - 53) - e)%Z with 0%Z by lia.
    cbn [shr shr_m].
    replace (e <=? 1024 - 53)%Z with true by (symmetry; apply Z.leb_le; lia).
    reflexivity.
Qed.

Lemma float_div_one (x : float) : div x (of_Z 1) = x.
Proof.
  apply Prim2SF_inj. cbn [div float_number]. rewrite FloatAxioms.div_spec, float_one.
  pose proof (Prim2SF_valid x) as Hv.
  destruct (Prim2SF x) as [s|s| |s m e].
  - cbn. rewrite xorb_false_r. reflexivity.
  - cbn. rewrite xorb_false_r. reflexivity.
  - reflexivity.
  - apply SFdiv_one. exact Hv.
Qed.

Lemma float_mul_zero (x : float) :
  ltb (of_Z 0) x = true -> finite x = true -> mul x (of_Z 0) = of_Z 0.
Proof.
  intros Hx Hfin. apply Prim2SF_inj. cbn [mul float_number].
  rewrite FloatAxioms.mul_spec, Prim2SF_zero.
  destruct (float_positive_cases x Hx) as [(m & e & E)|E].
  - rewrite E. reflexivity.
  - unfold finite in Hfin. rewrite E in Hfin. discriminate.
Qed.

(** ** Binary64 rounding

    What the purchase and the sale with GST need of binary64: the basic
    amount [b = amount / (1 + rate/100)] lies close enough below the
    amount for [amount - b] to be computed exactly, and [b + (amount - b)]
    is the amount again. *)

Section Binary64Rounding.
Local Open Scope Z_scope.

(** *** Binary digits *)

Lemma digits2_pos_bounds (m : positive) :
  2 ^ (Z.pos (digits2_pos m) - 1) <= Z.pos m < 2 ^ Z.pos (digits2_pos m).
Proof.
  induction m as [m IH|m IH|]; cbn [digits2_pos].
  - rewrite Pos2Z.inj_succ.
    replace (Z.succ (Z.pos (digits2_pos m)) - 1) with (Z.succ (Z.pos (digits2_pos m) - 1)) by lia.
    rewrite !Z.pow_succ_r by lia. lia.
  - rewrite Pos2Z.inj_succ.
    replace (Z.succ (Z.pos (digits2_pos m)) - 1) with (Z.succ (Z.pos (digits2_pos m) - 1)) by lia.
    rewrite !Z.pow_succ_r by lia. lia.
  - cbn. lia.
Qed.

Lemma digits2_pos_unique (m : positive) (d : Z) :
  2 ^ (d - 1) <= Z.pos m < 2 ^ d -> Z.pos (digits2_pos m) = d.
Proof.
  intro Hd. pose proof (digits2_pos_bounds m) as Hm.
  set (k := Z.pos (digits2_pos m)) in *.
  assert (Hk : 0 < k) by (unfold k; lia).
  assert (Hd0 : 0 < d).
  { destruct (Z.lt_ge_cases 0 d) as [H0|H0]; [exact H0|].
    assert (2 ^ d <= 2 ^ 0) by (apply Z.pow_le_mono_r; lia). cbn in *. lia. }
  destruct (Z.lt_trichotomy k d) as [Hlt|[Heq|Hgt]]; [|exact Heq|].
  - assert (2 ^ k <= 2 ^ (d - 1)) by (apply Z.pow_le_mono_r; lia). lia.
  - assert (2 ^ d <= 2 ^ (k - 1)) by (apply Z.pow_le_mono_r; lia). lia.
Qed.

(** *** Shifts *)

Lemma iter_xO (m k : positive) : Z.pos (Pos.iter xO m k) = Z.pos m * 2 ^ Z.pos k.
Proof.
  induction k as [|k IH] using Pos.peano_ind.
  - cbn. lia.
  - rewrite Pos.iter_succ, Pos2Z.inj_succ, Z.pow_succ_r by lia.
    rewrite Pos2Z.inj_xO, IH. lia.
Qed.

Lemma shl_align_spec (m : positive) (e e' : Z) :
  e' <= e ->
  Z.pos (fst (shl_align m e e')) = Z.pos m * 2 ^ (e - e')
  /\ snd (shl_align m e e') = e'.
Proof.
  intro He. unfold shl_align.
  destruct (e' - e) as [|p|p] eqn:E; try lia.
  - cbn [fst snd]. replace (e - e') with 0 by lia. split; lia.
  - cbn [fst snd]. rewrite iter_xO. replace (e - e') with (Z.pos p) by lia. split; reflexivity.
Qed.

Lemma shl_align_none (m : positive) (e e' : Z) :
  e <= e' -> shl_align m e e' = (m, e).
Proof.
  intro He. unfold shl_align. destruct (e' - e) as [|p|p] eqn:E; try lia; reflexivity.
Qed.

Lemma iter_pos_nat {A} (f : A -> A) (p : positive) (x : A) :
  iter_pos f p x = Nat.iter (Pos.to_nat p) f x.
Proof.
  revert x. induction p as [p IH|p IH|]; intro x; cbn [iter_pos].
  - rewrite !IH, Pos2Nat.inj_xI.
    replace (S (2 * Pos.to_nat p))%nat with (Pos.to_nat p + (Pos.to_nat p + 1))%nat by lia.
    rewrite !Nat.iter_add. reflexivity.
  - rewrite !IH, Pos2Nat.inj_xO.
    replace (2 * Pos.to_nat p)%nat with (Pos.to_nat p + Pos.to_nat p)%nat by lia.
    rewrite Nat.iter_add. reflexivity.
  - reflexivity.
Qed.

Lemma shr_1_even (M : Z) :
  0 <= M ->
  shr_1 {| shr_m := 2 * M; shr_r := false; shr_s := false |}
  = {| shr_m := M; shr_r := false; shr_s := false |}.
Proof.
  intro HM. destruct M as [|p|p]; try lia; reflexivity.
Qed.

Lemma shr_exact_nat (n : nat) (M : Z) :
  0 <= M ->
  Nat.iter n shr_1 {| shr_m := M * 2 ^ Z.of_nat n; shr_r := false; shr_s := false |}
  = {| shr_m := M; shr_r := false; shr_s := false |}.
Proof.
  intro HM. induction n as [|n IH].
  - cbn. rewrite Z.mul_1_r. reflexivity.
  - rewrite Nat.iter_succ_r.
    rewrite Nat2Z.inj_succ, Z.pow_succ_r by lia.
    replace (M * (2 * 2 ^ Z.of_nat n)) with (2 * (M * 2 ^ Z.of_nat n)) by lia.
    rewrite shr_1_even by (apply Z.mul_nonneg_nonneg; [lia| apply Z.pow_nonneg; lia]).
    exact IH.
Qed.

Lemma shr_exact (M e k : Z) :
  0 <= M -> 0 <= k ->
  shr {| shr_m := M * 2 ^ k; shr_r := false; shr_s := false |} e k
  = ({| shr_m := M; shr_r := false; shr_s := false |}, e + k).
Proof.
  intros HM Hk. unfold shr. destruct k as [|p|p]; try lia.
  - rewrite Z.mul_1_r, Z.add_0_r. reflexivity.
  - rewrite iter_pos_nat. rewrite <- (positive_nat_Z p) at 1.
    rewrite shr_exact_nat by exact HM. reflexivity.
Qed.

Lemma digits2_pos_shift (m M : positive) (k : Z) :
  0 <= k -> Z.pos M = Z.pos m * 2 ^ k ->
  Z.pos (digits2_pos M) = Z.pos (digits2_pos m) + k.
Proof.
  intros Hk HM. apply digits2_pos_unique.
  pose proof (digits2_pos_bounds m) as Hm.
  set (d := Z.pos (digits2_pos m)) in *.
  assert (Hd : 0 < d) by (unfold d; lia).
  replace (d + k - 1) with ((d - 1) + k) by lia.
  rewrite !Z.pow_add_r by lia. rewrite HM.
  assert (0 < 2 ^ k) by (apply Z.pow_pos_nonneg; lia).
  nia.
Qed.

Lemma fexp64 (z : Z) : SpecFloat.fexp prec emax z = Z.max (z - 53) (-1074).
Proof. reflexivity. Qed.

Lemma bounded64 (m : positive) (e : Z) :
  bounded prec emax m e = true <->
  Z.max (Z.pos (digits2_pos m) + e - 53) (-1074) = e /\ e <= 971.
Proof.
  unfold bounded, canonical_mantissa. rewrite andb_true_iff, Z.eqb_eq, Z.leb_le, fexp64.
  change (emax - prec) with 971. reflexivity.
Qed.

(** Rounding a number that has a canonical form gives that form. *)
Lemma binary_round_exact (s : bool) (M : positive) (E : Z) (m : positive) (e : Z) :
  bounded prec emax m e = true ->
  (e <= E /\ Z.pos m = Z.pos M * 2 ^ (E - e)
   \/ E <= e /\ Z.pos M = Z.pos m * 2 ^ (e - E)) ->
  binary_round prec emax s M E = S754_finite s m e.
Proof.
  intros Hb Hv. pose proof Hb as Hb'. apply bounded64 in Hb'. destruct Hb' as [Hc He].
  unfold binary_round. rewrite fexp64.
  destruct Hv as [[Hle Hm]|[Hle HM]].
  - rewrite (digits2_pos_shift M m (E - e) ltac:(lia) Hm) in Hc.
    replace (Z.pos (digits2_pos M) + E) with (Z.pos (digits2_pos M) + (E - e) + e) by lia.
    rewrite Hc.
    destruct (shl_align_spec M E e Hle) as [Hf Hs].
    destruct (shl_align M E e) as [mz ez]. cbn [fst snd] in Hf, Hs. subst ez.
    assert (mz = m) by (apply Pos2Z.inj; lia). subst mz.
    apply round_canonical. exact Hb.
  - pose proof (digits2_pos_shift m M (e - E) ltac:(lia) HM) as Hd.
    replace (Z.max (Z.pos (digits2_pos M) + E - 53) (-1074)) with e by lia.
    rewrite (shl_align_none M E e Hle).
    unfold binary_round_aux, shr_fexp. cbn [Zdigits2 shr_record_of_loc].
    rewrite fexp64.
    replace (Z.max (Z.pos (digits2_pos M) + E - 53) (-1074) - E) with (e - E) by lia.
    rewrite HM, shr_exact by lia.
    cbn [shr_m loc_of_shr_record round_nearest_even Zdigits2 shr_record_of_loc].
    rewrite fexp64.
    replace (E + (e - E)) with e by lia.
    replace (Z.max (Z.pos (digits2_pos m) + e - 53) (-1074) - e) with 0 by lia.
    cbn [shr shr_m]. change (emax - prec) with 971.
    replace (e <=? 971) with true by (symmetry; apply Z.leb_le; exact He).
    reflexivity.
Qed.

(** A number of at most 53 bits, at an exponent of the format, has a
    canonical form below that exponent. *)
Lemma binary_round_small (s : bool) (D : positive) (E : Z) :
  Z.pos D < 2 ^ 53 -> -1074 <= E <= 971 ->
  exists m e,
    binary_round prec emax s D E = S754_finite s m e
    /\ bounded prec emax m e = true
    /\ e <= E /\ Z.pos m = Z.pos D * 2 ^ (E - e).
Proof.
  intros HD HE.
  pose proof (digits2_pos_bounds D) as Hd.
  set (d := Z.pos (digits2_pos D)) in *.
  assert (Hd53 : d <= 53).
  { destruct (Z.le_gt_cases d 53) as [H|H]; [exact H|].
    assert (2 ^ 53 <= 2 ^ (d - 1)) by (apply Z.pow_le_mono_r; lia). lia. }
  set (e := Z.max (d + E - 53) (-1074)).
  assert (Hle : e <= E) by (unfold e; lia).
  assert (Hp : 0 < Z.pos D * 2 ^ (E - e)).
  { apply Z.mul_pos_pos; [lia | apply Z.pow_pos_nonneg; lia]. }
  destruct (Z.pos D * 2 ^ (E - e)) as [|m|m] eqn:Em; try lia.
  assert (Hm : Z.pos (digits2_pos m) = d + (E - e))
    by (apply digits2_pos_shift; [lia | symmetry; exact Em]).
  assert (Hb : bounded prec emax m e = true).
  { apply bounded64. rewrite Hm. unfold e. lia. }
  exists m, e. split; [|auto].
  apply binary_round_exact; [exact Hb|]. left. split; [exact Hle|]. symmetry. exact Em.
Qed.

(** When [y <= x] and their difference has at most 53 bits, [x - y] is
    computed exactly and [y + (x - y)] is [x]. *)
Lemma sub_add_exact (ma : positive) (ea : Z) (mb : positive) (eb : Z) :
  bounded prec emax ma ea = true -> bounded prec emax mb eb = true ->
  eb <= ea ->
  0 < Z.pos ma * 2 ^ (ea - eb) - Z.pos mb < 2 ^ 53 ->
  exists mg eg,
    SF64sub (S754_finite false ma ea) (S754_finite false mb eb)
      = S754_finite false mg eg
    /\ SF64add (S754_finite false mb eb) (S754_finite false mg eg)
       = S754_finite false ma ea.
Proof.
  intros Ha Hb Hle HD.
  pose proof (proj1 (bounded64 ma ea) Ha) as [Hca Hea].
  pose proof (proj1 (bounded64 mb eb) Hb) as [Hcb Heb].
  destruct (Z.pos ma * 2 ^ (ea - eb) - Z.pos mb) as [|D|D] eqn:ED; try lia.
  destruct (binary_round_small false D eb ltac:(lia) ltac:(lia))
    as (mg & eg & Hg & Hbg & Hleg & Hmg).
  exists mg, eg. split.
  - unfold SF64sub, SFsub. rewrite Z.min_r by exact Hle.
    destruct (shl_align_spec ma ea eb Hle) as [Hfa _].
    destruct (shl_align_spec mb eb eb (Z.le_refl _)) as [Hfb _].
    cbn [cond_Zopp]. rewrite Hfa, Hfb, Z.sub_diag, Z.mul_1_r, ED.
    exact Hg.
  - unfold SF64add, SFadd. rewrite Z.min_r by exact Hleg.
    destruct (shl_align_spec mb eb eg Hleg) as [Hfb _].
    destruct (shl_align_spec mg eg eg (Z.le_refl _)) as [Hfg _].
    cbn [cond_Zopp]. rewrite Hfb, Hfg, Z.sub_diag, Z.mul_1_r.
    assert (Hsum : Z.pos mb * 2 ^ (eb - eg) + Z.pos mg = Z.pos ma * 2 ^ (ea - eg)).
    { rewrite Hmg.
      replace (ea - eg) with ((ea - eb) + (eb - eg)) by lia.
      rewrite Z.pow_add_r by lia. nia. }
    rewrite Hsum.
    assert (Hp : 0 < Z.pos ma * 2 ^ (ea - eg)).
    { apply Z.mul_pos_pos; [lia | apply Z.pow_pos_nonneg; lia]. }
    destruct (Z.pos ma * 2 ^ (ea - eg)) as [|S|S] eqn:ES; try lia.
    cbn [binary_normalize].
    apply binary_round_exact; [exact Ha|]. right. split; [lia|]. symmetry. exact ES.
Qed.

(** *** Rounding a quotient *)

Lemma round_nearest_even_cases (m : Z) (l : location) :
  round_nearest_even m l = m \/ round_nearest_even m l = m + 1.
Proof.
  destruct l as [|[| |]]; cbn; auto. destruct (Z.even m); auto.
Qed.

Lemma loc_of_record_of_loc (m : Z) (l : location) :
  loc_of_shr_record (shr_record_of_loc m l) = l.
Proof. destruct l as [|[| |]]; reflexivity. Qed.

Lemma shr_m_record_of_loc (m : Z) (l : location) :
  shr_m (shr_record_of_loc m l) = m.
Proof. destruct l as [|[| |]]; reflexivity. Qed.

(** The last step of a rounding, on a mantissa of 53 bits. *)
Lemma round_finish (s : bool) (m : positive) (e : Z) :
  2 ^ 52 <= Z.pos m < 2 ^ 53 -> -1074 <= e <= 971 ->
  (let '(mrs, e') := shr_fexp prec emax (Z.pos m) e loc_Exact in
   match shr_m mrs with
   | Z0 => S754_zero s
   | Z.pos m' => if e' <=? emax - prec then S754_finite s m' e' else S754_infinity s
   | Z.neg _ => S754_nan
   end) = S754_finite s m e.
Proof.
  intros Hm He. unfold shr_fexp. cbn [Zdigits2 shr_record_of_loc]. rewrite fexp64.
  rewrite (digits2_pos_unique m 53) by (change (53 - 1) with 52; exact Hm).
  replace (Z.max (53 + e - 53) (-1074) - e) with 0 by lia.
  cbn [shr shr_m]. change (emax - prec) with 971.
  replace (e <=? 971) with true by (symmetry; apply Z.leb_le; lia).
  reflexivity.
Qed.

(** Rounding a mantissa of 53 bits: it stays or goes one up, with a carry
    into the next binade from the last mantissa. *)
Lemma round_53 (s : bool) (q : positive) (e : Z) (l : location) :
  2 ^ 52 <= Z.pos q < 2 ^ 53 -> -1074 <= e -> e + 1 <= 971 ->
  exists m' e',
    binary_round_aux prec emax s (Z.pos q) e l = S754_finite s m' e'
    /\ (e' = e /\ Z.pos q <= Z.pos m' <= Z.pos q + 1 /\ Z.pos m' < 2 ^ 53
        \/ e' = e + 1 /\ Z.pos m' = 2 ^ 52 /\ Z.pos q = 2 ^ 53 - 1).
Proof.
  intros Hq He1 He2. unfold binary_round_aux.
  unfold shr_fexp at 1. cbn [Zdigits2]. rewrite fexp64.
  rewrite (digits2_pos_unique q 53) by (change (53 - 1) with 52; exact Hq).
  replace (Z.max (53 + e - 53) (-1074) - e) with 0 by lia.
  cbn [shr]. rewrite loc_of_record_of_loc, shr_m_record_of_loc.
  destruct (round_nearest_even_cases (Z.pos q) l) as [->| ->].
  - exists q, e. split; [apply round_finish; lia|]. left. lia.
  - destruct (Z.eq_dec (Z.pos q) (2 ^ 53 - 1)) as [Eq|Eq].
    + exists 4503599627370496%positive, (e + 1). split; [|right; split; [reflexivity|split; [reflexivity|exact Eq]]].
      rewrite Eq. change (2 ^ 53 - 1 + 1) with 9007199254740992.
      unfold shr_fexp. cbn [Zdigits2 digits2_pos shr_record_of_loc Pos.succ].
      rewrite fexp64.
      change (Z.pos (digits2_pos 9007199254740992)) with 54.
      replace (Z.max (54 + e - 53) (-1074) - e) with 1 by lia.
      cbn [shr iter_pos shr_1 shr_m]. change (emax - prec) with 971.
      replace (e + 1 <=? 971) with true by (symmetry; apply Z.leb_le; lia).
      reflexivity.
    + assert (Hp : 0 < Z.pos q + 1) by lia.
      destruct (Z.pos q + 1) as [|m'|m'] eqn:Em; try lia.
      exists m', e. split; [apply round_finish; lia|]. left. lia.
Qed.

(** Rounding a mantissa of 54 bits: half of it, or one more. *)
Lemma round_54 (s : bool) (q : positive) (e : Z) (l : location) :
  2 ^ 53 <= Z.pos q < 2 ^ 54 - 2 -> -1074 <= e + 1 <= 971 ->
  exists m',
    binary_round_aux prec emax s (Z.pos q) e l = S754_finite s m' (e + 1)
    /\ Z.pos q - 1 <= 2 * Z.pos m' <= Z.pos q + 2.
Proof.
  intros Hq He.
  assert (P52 : 2 ^ 52 = 4503599627370496) by reflexivity.
  assert (P53 : 2 ^ 53 = 9007199254740992) by reflexivity.
  assert (P54 : 2 ^ 54 = 18014398509481984) by reflexivity.
  unfold binary_round_aux.
  unfold shr_fexp at 1. cbn [Zdigits2]. rewrite fexp64.
  rewrite (digits2_pos_unique q 54) by (change (54 - 1) with 53; lia).
  replace (Z.max (54 + e - 53) (-1074) - e) with 1 by lia.
  cbn [shr iter_pos].
  assert (Hs : exists p r t, shr_1 (shr_record_of_loc (Z.pos q) l)
                             = {| shr_m := Z.pos p; shr_r := r; shr_s := t |}
                             /\ 2 * Z.pos p <= Z.pos q <= 2 * Z.pos p + 1).
  { destruct q as [p|p|]; try lia;
      destruct l as [|[| |]]; cbn; eexists p, _, _; (split; [reflexivity|lia]). }
  destruct Hs as (p & r & t & -> & Hp). cbn [shr_m].
  destruct (round_nearest_even_cases (Z.pos p)
              (loc_of_shr_record {| shr_m := Z.pos p; shr_r := r; shr_s := t |}))
    as [->| ->].
  - exists p. split; [apply round_finish; lia|]. lia.
  - assert (Hp1 : 0 < Z.pos p + 1) by lia.
    destruct (Z.pos p + 1) as [|m'|m'] eqn:Em; try lia.
    exists m'. split; [apply round_finish; lia|]. lia.
Qed.

(** *** Dividing by [1 + rate/100] *)

Lemma div_eucl_div_mod (a b : Z) : Z.div_eucl a b = (a / b, a mod b).
Proof. unfold Z.div, Z.modulo. destruct (Z.div_eucl a b). reflexivity. Qed.

(** A normal number divided by a divisor between 1.05 and 1.28: the
    quotient is a normal number below it, near enough for their difference
    to be a float. *)
Lemma SFdiv_rate (ma : positive) (ea : Z) (md : positive) :
  bounded prec emax ma ea = true ->
  2 ^ 52 <= Z.pos ma -> -1073 <= ea ->
  4728779608739021 <= Z.pos md <= 5764607523034235 ->
  exists mb eb,
    SF64div (S754_finite false ma ea) (S754_finite false md (-52))
      = S754_finite false mb eb
    /\ bounded prec emax mb eb = true
    /\ eb <= ea
    /\ 0 < Z.pos ma * 2 ^ (ea - eb) - Z.pos mb < 2 ^ 53.
Proof.
  intros Ha Hn He Hd.
  assert (P52 : 2 ^ 52 = 4503599627370496) by reflexivity.
  assert (P53 : 2 ^ 53 = 9007199254740992) by reflexivity.
  assert (P54 : 2 ^ 54 = 18014398509481984) by reflexivity.
  pose proof (proj1 (bounded64 ma ea) Ha) as [Hca Hea].
  pose proof (digits2_pos_bounds ma) as Hda.
  assert (Hma : Z.pos ma < 2 ^ 53).
  { destruct (Z.lt_ge_cases (Z.pos ma) (2 ^ 53)) as [H|H]; [exact H|].
    assert (54 <= Z.pos (digits2_pos ma)).
    { destruct (Z.lt_ge_cases (Z.pos (digits2_pos ma)) 54) as [H'|H']; [|exact H'].
      assert (2 ^ Z.pos (digits2_pos ma) <= 2 ^ 53) by (apply Z.pow_le_mono_r; lia).
      lia. }
    lia. }
  unfold SF64div, SFdiv, SFdiv_core_binary. cbn [xorb Zdigits2].
  rewrite (digits2_pos_unique ma 53) by (change (53 - 1) with 52; lia).
  rewrite (digits2_pos_unique md 53) by (change (53 - 1) with 52; lia).
  rewrite fexp64.
  replace (Z.min (Z.max (53 + ea - (53 + -52) - 53) (-1074)) (ea - -52))
    with (ea - 1) by lia.
  replace (ea - -52 - (ea - 1)) with 53 by lia.
  rewrite Z.shiftl_mul_pow2 by lia. rewrite div_eucl_div_mod.
  set (X := Z.pos ma * 2 ^ 53).
  pose proof (Z.mul_div_le X (Z.pos md) ltac:(lia)) as Hq1.
  pose proof (Z.mul_succ_div_gt X (Z.pos md) ltac:(lia)) as Hq2.
  set (q := X / Z.pos md) in *.
  set (l := new_location (Z.pos md) (X mod Z.pos md)). clearbody l.
  assert (Hq0 : 0 <= q) by (apply Z.div_pos; unfold X; lia).
  assert (Hlo : 4728779608739021 * q <= Z.pos md * q) by nia.
  assert (Hhi : Z.pos md * Z.succ q <= 5764607523034235 * Z.succ q) by nia.
  unfold X in Hq1, Hq2. rewrite P53 in Hq1, Hq2.
  clearbody q. destruct q as [|q'|q']; try lia.
  destruct (Z.lt_ge_cases (Z.pos q') (2 ^ 53)) as [Hq53|Hq54].
  - destruct (round_53 false q' (ea - 1) l ltac:(lia) ltac:(lia) ltac:(lia))
      as (mb & eb & Hr & [(-> & Hm1 & Hm2)|(-> & Hm1 & Hm2)]).
    + exists mb, (ea - 1). split; [exact Hr|]. split; [apply bounded64; rewrite (digits2_pos_unique mb 53) by (change (53 - 1) with 52; lia); lia|].
      split; [lia|]. replace (ea - (ea - 1)) with 1 by lia. change (2 ^ 1) with 2. lia.
    + exists mb, (ea - 1 + 1). split; [exact Hr|]. split; [apply bounded64; rewrite (digits2_pos_unique mb 53) by (change (53 - 1) with 52; lia); lia|].
      split; [lia|]. replace (ea - (ea - 1 + 1)) with 0 by lia. change (2 ^ 0) with 1. lia.
  - destruct (round_54 false q' (ea - 1) l ltac:(lia) ltac:(lia)) as (mb & Hr & Hm).
    exists mb, (ea - 1 + 1). split; [exact Hr|]. split; [apply bounded64; rewrite (digits2_pos_unique mb 53) by (change (53 - 1) with 52; lia); lia|].
    split; [lia|]. replace (ea - (ea - 1 + 1)) with 0 by lia. change (2 ^ 0) with 1. lia.
Qed.

(** *** The amounts of the form *)

(** A finite amount of at least 0.01 is a positive normal number. *)
Lemma float_form_amount (a : float) :
  leb tol a = true -> finite a = true ->
  exists ma ea,
    Prim2SF a = S754_finite false ma ea
    /\ bounded prec emax ma ea = true
    /\ (2 ^ 52 <= Z.pos ma)%Z /\ (-59 <= ea)%Z.
Proof.
  cbn [leb float_number]. rewrite FloatAxioms.leb_spec. unfold finite.
  pose proof (Prim2SF_valid a) as Hv.
  change (Prim2SF tol) with (S754_finite false 5764607523034235 (-59)).
  destruct (Prim2SF a) as [s|s| |s ma ea].
  - intros Hle _. cbv in Hle. discriminate Hle.
  - intros _ Hf. discriminate Hf.
  - intros _ Hf. discriminate Hf.
  - intros Hle _. cbn [valid_binary] in Hv.
    assert (Hs : s = false) by (destruct s; [discriminate|reflexivity]). subst s.
    assert (He : (-59 <= ea)%Z).
    { unfold SFleb, SFcompare in Hle.
      destruct (Z.compare_spec (-59) ea) as [E|E|E]; first [lia | discriminate]. }
    exists ma, ea. split; [reflexivity|]. split; [exact Hv|]. split; [|exact He].
    apply bounded64 in Hv. destruct Hv as [Hc _].
    pose proof (digits2_pos_bounds ma) as Hd.
    replace (Z.pos (digits2_pos ma)) with 53%Z in Hd by lia.
    change (53 - 1)%Z with 52%Z in Hd. lia.
Qed.

Lemma float_finite_positive (x : float) (m : positive) (e : Z) :
  Prim2SF x = S754_finite false m e -> ltb (of_Z 0) x = true /\ finite x = true.
Proof.
  intro E. unfold finite. cbn [ltb float_number].
  rewrite FloatAxioms.ltb_spec, E. split; reflexivity.
Qed.

(** The divisor of an offered rate. *)
Lemma float_rate_divisor (rate : Z) :
  In rate entry_rates ->
  exists md,
    Prim2SF (add (of_Z 1) (div (of_Z rate) (of_Z 100))) = S754_finite false md (-52)
    /\ (4728779608739021 <= Z.pos md <= 5764607523034235)%Z.
Proof.
  intro Hin.
  repeat (destruct Hin as [<-|Hin]; [eexists; split; [reflexivity|lia]|]).
  destruct Hin.
Qed.

(** On binary64, for a finite amount of at least 0.01 and an offered rate:
    the basic amount and the tax are above zero, and they add up to the
    amount exactly. *)
Lemma float_inclusive_parts (amount : float) (rate : Z) :
  leb tol amount = true -> finite amount = true -> In rate entry_rates ->
  exists b : float,
    pdiv amount (add (of_Z 1) (div (of_Z rate) (of_Z 100))) = Ok b
    /\ ltb (of_Z 0) b = true
    /\ ltb (of_Z 0) (sub amount b) = true
    /\ add b (sub amount b) = amount.
Proof.
  intros Hle Hfin Hin.
  destruct (float_form_amount amount Hle Hfin) as (ma & ea & Ea & Hba & Hn & He).
  destruct (float_rate_divisor rate Hin) as (md & Ed & Hmd).
  destruct (SFdiv_rate ma ea md Hba Hn ltac:(lia) Hmd)
    as (mb & eb & Hdiv & Hbb & Heb & HD).
  destruct (sub_add_exact ma ea mb eb Hba Hbb Heb HD) as (mg & eg & Hsub & Hadd).
  set (d := add (of_Z 1) (div (of_Z rate) (of_Z 100)) : float) in *.
  assert (Eb : Prim2SF (div amount d) = S754_finite false mb eb).
  { cbn [div float_number]. rewrite FloatAxioms.div_spec, Ea, Ed. exact Hdiv. }
  assert (Eg : Prim2SF (sub amount (div amount d)) = S754_finite false mg eg).
  { cbn [sub div float_number]. rewrite FloatAxioms.sub_spec, Ea.
    cbn [div float_number] in Eb. rewrite Eb. exact Hsub. }
  exists (div amount d). split.
  - unfold pdiv. replace (eqb d (of_Z 0)) with false; [reflexivity|].
    cbn [eqb float_number]. rewrite FloatAxioms.eqb_spec, Ed. reflexivity.
  - split; [apply (float_finite_positive _ mb eb Eb)|].
    split; [apply (float_finite_positive _ mg eg Eg)|].
    apply Prim2SF_inj. cbn [add sub div float_number]. rewrite FloatAxioms.add_spec.
    cbn [sub div float_number] in Eb, Eg. rewrite Eb, Eg, Ea. exact Hadd.
Qed.

End Binary64Rounding.

(** ** Accounting equation *)

Section EquationSolverFacts.
Context {F : Type} `{Number F}.
Local Open Scope num_scope.

Lemma por_supplied (v : F) (b : option F) :
  supplied (Some v) = true -> por (Some v) b = Some v.
Proof.
  intro Hs. unfold supplied in Hs. unfold por, otruthy, truthy.
  rewrite Hs. reflexivity.
Qed.

Lemma verify_por_r (fa fl : option F) (fc : F) :
  verify fa fl (por (Some fc) None) = verify fa fl (Some fc).
Proof.
  unfold por, otruthy. destruct (truthy fc) eqn:E; [reflexivity|].
  destruct fa as [a|], fl as [l|]; try reflexivity.
  unfold verify. rewrite E, !andb_false_r. reflexivity.
Qed.

(** Assets absent, liabilities and capital supplied. *)
Lemma solve_assets_absent (l c drawings additional_capital profit_loss : F) :
  supplied (Some l) = true -> supplied (Some c) = true ->
  let adjusted := c + additional_capital - drawings + profit_loss in
  solve_equation None (Some l) (Some c) drawings additional_capital profit_loss
  = Solved {| adjusted_capital := Some adjusted;
              solution := {| sol_assets := Some (l + adjusted);
                             sol_liabilities := None;
                             sol_original_capital := None;
                             sol_adjusted_capital := None |};
              verification := verify (Some (l + adjusted)) (Some l) (Some adjusted) |}.
Proof.
  intros Hl Hc adjusted. unfold solve_equation, known_values.
  cbn [filter]. rewrite Hl, Hc. cbn [supplied List.length Nat.ltb Nat.leb].
  cbn [adjust_capital apply_equation sol_assets sol_liabilities sol_adjusted_capital].
  rewrite por_supplied by assumption. rewrite verify_por_r. reflexivity.
Qed.

(** Liabilities absent, assets and capital supplied. *)
Lemma solve_liabilities_absent (a c drawings additional_capital profit_loss : F) :
  supplied (Some a) = true -> supplied (Some c) = true ->
  let adjusted := c + additional_capital - drawings + profit_loss in
  solve_equation (Some a) None (Some c) drawings additional_capital profit_loss
  = Solved {| adjusted_capital := Some adjusted;
              solution := {| sol_assets := None;
                             sol_liabilities := Some (a - adjusted);
                             sol_original_capital := None;
                             sol_adjusted_capital := None |};
              verification := verify (Some a) (Some (a - adjusted)) (Some adjusted) |}.
Proof.
  intros Ha Hc adjusted. unfold solve_equation, known_values.
  cbn [filter]. rewrite Ha, Hc. cbn [supplied List.length Nat.ltb Nat.leb].
  cbn [adjust_capital apply_equation sol_assets sol_liabilities sol_adjusted_capital].
  rewrite por_supplied by assumption. rewrite verify_por_r. reflexivity.
Qed.

(** Capital absent, assets and liabilities supplied. *)
Lemma solve_capital_absent (a l drawings additional_capital profit_loss : F) :
  supplied (Some a) = true -> supplied (Some l) = true ->
  let calculated := a - l in
  solve_equation (Some a) (Some l) None drawings additional_capital profit_loss
  = Solved {| adjusted_capital := None;
              solution := {| sol_assets := None;
                             sol_liabilities := None;
                             sol_original_capital :=
                               Some (calculated - additional_capital + drawings - profit_loss);
                             sol_adjusted_capital := Some calculated |};
              verification := verify (Some a) (Some l) (Some calculated) |}.
Proof.
  intros Ha Hl calculated. unfold solve_equation, known_values.
  cbn [filter]. rewrite Ha, Hl. cbn [supplied List.length Nat.ltb Nat.leb].
  cbn [adjust_capital apply_equation sol_assets sol_liabilities sol_adjusted_capital].
  rewrite !por_supplied by assumption. reflexivity.
Qed.

Lemma solve_insufficient_iff (assets liabilities capital : option F)
    (drawings additional_capital profit_loss : F) :
  solve_equation assets liabilities capital drawings additional_capital profit_loss
    = InsufficientKnownValues
  <-> (known_values assets liabilities capital < 2)%nat.
Proof.
  unfold solve_equation.
  destruct (Nat.ltb_spec (known_values assets liabilities capital) 2) as [Hlt|Hge].
  - split; [intros _; exact Hlt | reflexivity].
  - split; [discriminate | intro Hlt; exfalso; apply (proj1 (Nat.le_ngt _ _) Hge Hlt)].
Qed.

End EquationSolverFacts.

(** C1.  When exactly one of assets, liabilities and capital is absent and
    the other two are supplied (present and not zero, what the solver
    counts as known), the solver computes the missing term by the stated
    formulas: the adjusted capital is
    [capital + additional_capital - drawings + profit_loss] whenever
    capital is present; absent assets are [liabilities + adjusted];
    absent liabilities are [assets - adjusted]; with capital absent the
    adjusted capital is [assets - liabilities] and the original capital is
    [adjusted - additional_capital + drawings - profit_loss].  This holds
    in every arithmetic, binary64 included. *)
Theorem solve_equation_formulas :
  forall (F : Type) (N : Number F) (drawings additional_capital profit_loss : F),
    (forall l c, supplied (Some l) = true -> supplied (Some c) = true ->
       let adjusted := (c + additional_capital - drawings + profit_loss)%num in
       exists out,
         solve_equation None (Some l) (Some c) drawings additional_capital profit_loss
           = Solved out
         /\ adjusted_capital out = Some adjusted
         /\ solution out = {| sol_assets := Some (l + adjusted)%num;
                              sol_liabilities := None;
                              sol_original_capital := None;
                              sol_adjusted_capital := None |})
    /\ (forall a c, supplied (Some a) = true -> supplied (Some c) = true ->
       let adjusted := (c + additional_capital - drawings + profit_loss)%num in
       exists out,
         solve_equation (Some a) None (Some c) drawings additional_capital profit_loss
           = Solved out
         /\ adjusted_capital out = Some adjusted
         /\ solution out = {| sol_assets := None;
                              sol_liabilities := Some (a - adjusted)%num;
                              sol_original_capital := None;
                              sol_adjusted_capital := None |})
    /\ (forall a l, supplied (Some a) = true -> supplied (Some l) = true ->
       let adjusted := (a - l)%num in
       exists out,
         solve_equation (Some a) (Some l) None drawings additional_capital profit_loss
           = Solved out
         /\ adjusted_capital out = None
         /\ solution out = {| sol_assets := None;
                              sol_liabilities := None;
                              sol_original_capital :=
                                Some (adjusted - additional_capital + drawings - profit_loss)%num;
                              sol_adjusted_capital := Some adjusted |}).
Proof.
  intros F N drawings additional_capital profit_loss. repeat split.
  - intros l c Hl Hc adjusted. eexists. split.
    + apply solve_assets_absent; assumption.
    + split; reflexivity.
  - intros a c Ha Hc adjusted. eexists. split.
    + apply solve_liabilities_absent; assumption.
    + split; reflexivity.
  - intros a l Ha Hl adjusted. eexists. split.
    + apply solve_capital_absent; assumption.
    + split; reflexivity.
Qed.

(** The first practice problem on binary64: liabilities 50,000 and capital
    1,50,000 give assets 2,00,000. *)
Lemma solve_equation_formulas_witness :
  exists out,
    solve_equation None (Some (of_Z 50000 : float)) (Some (of_Z 150000))
      (of_Z 0) (of_Z 0) (of_Z 0) = Solved out
    /\ adjusted_capital out = Some (of_Z 150000 + of_Z 0 - of_Z 0 + of_Z 0)%num
    /\ solution out
       = {| sol_assets := Some (of_Z 50000 + (of_Z 150000 + of_Z 0 - of_Z 0 + of_Z 0))%num;
            sol_liabilities := None;
            sol_original_capital := None;
            sol_adjusted_capital := None |}.
Proof.
  refine (proj1 (solve_equation_formulas float float_number (of_Z 0) (of_Z 0) (of_Z 0))
            (of_Z 50000) (of_Z 150000) _ _); vm_compute; reflexivity.
Defined.

(** ** Insufficient known values *)

Section KnownValuesFacts.
Context {F : Type} `{Number F}.

Lemma known_values_absent_assets (liabilities capital : option F) :
  (2 <= known_values None liabilities capital)%nat ->
  exists l c, liabilities = Some l /\ capital = Some c
              /\ supplied (Some l) = true /\ supplied (Some c) = true.
Proof.
  unfold known_values. cbn [filter supplied].
  destruct liabilities as [l|], capital as [c|]; cbn [filter supplied].
  - destruct (neb l (of_Z 0)) eqn:El, (neb c (of_Z 0)) eqn:Ec; cbn; try lia.
    intros _. exists l, c. cbn. auto.
  - destruct (neb l (of_Z 0)); cbn; lia.
  - destruct (neb c (of_Z 0)); cbn; lia.
  - cbn; lia.
Qed.

Lemma known_values_absent_liabilities (a : F) (capital : option F) :
  (2 <= known_values (Some a) None capital)%nat ->
  exists c, capital = Some c
            /\ supplied (Some a) = true /\ supplied (Some c) = true.
Proof.
  unfold known_values. cbn [filter supplied].
  destruct capital as [c|]; cbn [filter supplied].
  - destruct (neb a (of_Z 0)) eqn:Ea, (neb c (of_Z 0)) eqn:Ec; cbn; try lia.
    intros _. exists c. cbn. auto.
  - destruct (neb a (of_Z 0)); cbn; lia.
Qed.

Lemma known_values_absent_capital (a l : F) :
  (2 <= known_values (Some a) (Some l) None)%nat ->
  supplied (Some a) = true /\ supplied (Some l) = true.
Proof.
  unfold known_values. cbn [filter supplied].
  destruct (neb a (of_Z 0)) eqn:Ea, (neb l (of_Z 0)) eqn:El; cbn;
    solve [lia | auto].
Qed.

End KnownValuesFacts.

(** C2, counterexample.  Liabilities supplied as a legitimate zero and
    capital 1,50,000, assets absent: two of the three terms are supplied,
    and the solver still answers that it needs two known values.  The
    same input with liabilities 50,000 is solved. *)
Lemma zero_liabilities_insufficient :
  solve_equation None (Some (of_Z 0 : float)) (Some (of_Z 150000))
    (of_Z 0) (of_Z 0) (of_Z 0) = InsufficientKnownValues
  /\ absent_count None (Some (of_Z 0 : float)) (Some (of_Z 150000 : float)) = 1%nat.
Proof. split; vm_compute; reflexivity. Qed.

(** C2, amended.  The solver answers [InsufficientKnownValues], computing
    nothing, exactly when fewer than two of assets, liabilities and capital
    are present and not zero: a term supplied as zero counts as unknown.
    Whenever at least two are present and not zero, the run goes on, and a
    term that is absent is computed. *)
Theorem insufficient_known_values_iff :
  forall (F : Type) (N : Number F) (assets liabilities capital : option F)
         (drawings additional_capital profit_loss : F),
    (solve_equation assets liabilities capital drawings additional_capital profit_loss
       = InsufficientKnownValues
     <-> (known_values assets liabilities capital < 2)%nat)
    /\ ((2 <= known_values assets liabilities capital)%nat ->
        exists out,
          solve_equation assets liabilities capital drawings additional_capital profit_loss
            = Solved out
          /\ (assets = None -> sol_assets (solution out) <> None)
          /\ (liabilities = None -> sol_liabilities (solution out) <> None)
          /\ (capital = None ->
              sol_adjusted_capital (solution out) <> None
              /\ sol_original_capital (solution out) <> None)).
Proof.
  intros F N assets liabilities capital drawings additional_capital profit_loss.
  split; [apply solve_insufficient_iff|].
  intro Hk. destruct assets as [a|].
  - destruct liabilities as [l|].
    + destruct capital as [c|].
      * destruct (solve_equation (Some a) (Some l) (Some c) drawings
                    additional_capital profit_loss) as [|out] eqn:E.
        -- apply solve_insufficient_iff in E. lia.
        -- exists out. repeat split; discriminate.
      * apply known_values_absent_capital in Hk. destruct Hk as [Ha Hl].
        eexists. split; [apply solve_capital_absent; assumption|].
        cbn. repeat split; discriminate.
    + apply known_values_absent_liabilities in Hk. destruct Hk as (c & -> & Ha & Hc).
      eexists. split; [apply solve_liabilities_absent; assumption|].
      cbn. repeat split; discriminate.
  - apply known_values_absent_assets in Hk. destruct Hk as (l & c & -> & -> & Hl & Hc).
    eexists. split; [apply solve_assets_absent; assumption|].
    cbn. repeat split; discriminate.
Qed.

(** Assets 3,00,000 and liabilities 75,000 on binary64: capital is
    computed. *)
Lemma insufficient_known_values_iff_witness :
  exists out,
    solve_equation (Some (of_Z 300000 : float)) (Some (of_Z 75000)) None
      (of_Z 0) (of_Z 0) (of_Z 0) = Solved out
    /\ (Some (of_Z 300000 : float) = None -> sol_assets (solution out) <> None)
    /\ (Some (of_Z 75000 : float) = None -> sol_liabilities (solution out) <> None)
    /\ (@None float = None ->
        sol_adjusted_capital (solution out) <> None
        /\ sol_original_capital (solution out) <> None).
Proof.
  refine (proj2 (insufficient_known_values_iff float float_number
                   (Some (of_Z 300000)) (Some (of_Z 75000)) None
                   (of_Z 0) (of_Z 0) (of_Z 0)) _).
  vm_compute. apply le_n.
Defined.

(** ** The verification after the solve *)

Section VerificationFacts.
Context {F : Type} `{Number F}.
Local Open Scope num_scope.

Lemma verify_performed_iff (fa fl fc : option F) :
  verify fa fl fc <> None <-> otruthy fa && otruthy fl && otruthy fc = true.
Proof.
  destruct fa as [a|], fl as [l|], fc as [c|]; cbn;
    try rewrite !andb_false_r;
    try (split; [intro E; exfalso; apply E; reflexivity | discriminate]).
  destruct (truthy a && truthy l && truthy c).
  - destruct (abs (a - (l + c)) <? tol); split; auto; discriminate.
  - split; [intro E; exfalso; apply E; reflexivity | discriminate].
Qed.

Lemma verify_report (a l c : F) :
  verify (Some a) (Some l) (Some c) <> None ->
  verify (Some a) (Some l) (Some c)
  = Some (if abs (a - (l + c)) <? tol then Verified else EquationImbalance).
Proof.
  cbn. destruct (truthy a && truthy l && truthy c).
  - intros _. destruct (abs (a - (l + c)) <? tol); reflexivity.
  - intro E. exfalso. apply E. reflexivity.
Qed.

Lemma solved_verification (assets liabilities capital : option F)
    (drawings additional_capital profit_loss : F) (out : solve_output) :
  solve_equation assets liabilities capital drawings additional_capital profit_loss
    = Solved out ->
  verification out
  = verify (por assets (sol_assets (solution out)))
           (por liabilities (sol_liabilities (solution out)))
           (por (adjusted_capital out) (sol_adjusted_capital (solution out))).
Proof.
  unfold solve_equation.
  destruct (known_values assets liabilities capital <? 2)%nat; [discriminate|].
  intro E. injection E as <-. reflexivity.
Qed.

End VerificationFacts.

(** In exact arithmetic a verification that runs on values satisfying the
    equation reports [Verified]. *)
Lemma Q_verify_balanced (a l c : Q) :
  (a == l + c)%Q ->
  verify (Some a) (Some l) (Some c) = None
  \/ verify (Some a) (Some l) (Some c) = Some Verified.
Proof.
  intro E. cbn [verify].
  destruct (truthy a && truthy l && truthy c); [|left; reflexivity].
  right. change (l + c)%Q with (add l c) in E.
  rewrite (Q_within_tol_of_eq _ _ E). reflexivity.
Qed.

(** C3, counterexample.  On binary64: with assets 100 and liabilities 100
    the solve succeeds (capital 0) and step 3 is skipped; with assets 100,
    liabilities 50 and capital 10 all supplied the mismatch is reported;
    and with assets 1 and capital 10^17 the liabilities computed by the
    solver's own formula fail the verification, by rounding. *)
Lemma verification_skipped_or_failing :
  solve_equation (Some (of_Z 100 : float)) (Some (of_Z 100)) None
    (of_Z 0) (of_Z 0) (of_Z 0)
  = Solved {| adjusted_capital := None;
              solution := {| sol_assets := None; sol_liabilities := None;
                             sol_original_capital := Some (of_Z 0);
                             sol_adjusted_capital := Some (of_Z 0) |};
              verification := None |}
  /\ solve_equation (Some (of_Z 100 : float)) (Some (of_Z 50)) (Some (of_Z 10))
       (of_Z 0) (of_Z 0) (of_Z 0)
     = Solved {| adjusted_capital := Some (of_Z 10);
                 solution := empty_solution;
                 verification := Some EquationImbalance |}
  /\ solve_equation (Some (of_Z 1 : float)) None (Some (of_Z (10 ^ 17)))
       (of_Z 0) (of_Z 0) (of_Z 0)
     = Solved {| adjusted_capital := Some (of_Z (10 ^ 17));
                 solution := {| sol_assets := None;
                                sol_liabilities := Some (of_Z (- 10 ^ 17));
                                sol_original_capital := None;
                                sol_adjusted_capital := None |};
                 verification := Some EquationImbalance |}.
Proof. repeat split; vm_compute; reflexivity. Qed.

(** C3, amended.  After a solve, step 3 runs exactly when the final
    assets, liabilities and adjusted capital are all present and not zero;
    when it runs it compares [|assets - (liabilities + adjusted)|] with
    0.01 and reports a mismatch as [EquationImbalance] (every arithmetic).
    In exact arithmetic, when exactly one of the three terms was absent,
    the mismatch is never reported: step 3 is skipped or reports
    [Verified]. *)
Theorem verification_when_nonzero :
  (forall (F : Type) (N : Number F) (assets liabilities capital : option F)
          (drawings additional_capital profit_loss : F) (out : solve_output),
     solve_equation assets liabilities capital drawings additional_capital profit_loss
       = Solved out ->
     let final_assets := por assets (sol_assets (solution out)) in
     let final_liabilities := por liabilities (sol_liabilities (solution out)) in
     let final_capital :=
       por (adjusted_capital out) (sol_adjusted_capital (solution out)) in
     (verification out <> None
      <-> otruthy final_assets && otruthy final_liabilities && otruthy final_capital
          = true)
     /\ (forall a l c,
           final_assets = Some a -> final_liabilities = Some l -> final_capital = Some c ->
           verification out <> None ->
           verification out
           = Some (if (abs (a - (l + c)) <? tol)%num then Verified
                   else EquationImbalance)))
  /\ (forall (assets liabilities capital : option Q)
             (drawings additional_capital profit_loss : Q) (out : solve_output),
        absent_count assets liabilities capital = 1%nat ->
        solve_equation assets liabilities capital drawings additional_capital profit_loss
          = Solved out ->
        verification out = None \/ verification out = Some Verified).
Proof.
  split.
  - intros F N assets liabilities capital drawings additional_capital profit_loss out E
      final_assets final_liabilities final_capital.
    rewrite (solved_verification _ _ _ _ _ _ _ E).
    fold final_assets final_liabilities final_capital. split.
    + apply verify_performed_iff.
    + intros a l c -> -> ->. apply verify_report.
  - intros assets liabilities capital drawings additional_capital profit_loss out Hone E.
    assert (Hk : (2 <= known_values assets liabilities capital)%nat).
    { destruct (Nat.le_gt_cases 2 (known_values assets liabilities capital)) as [Hk|Hk];
        [exact Hk|].
      apply (solve_insufficient_iff assets liabilities capital
               drawings additional_capital profit_loss) in Hk.
      congruence. }
    destruct assets as [a|], liabilities as [l|], capital as [c|];
      try discriminate Hone.
    + apply known_values_absent_capital in Hk. destruct Hk as [Ha Hl].
      rewrite solve_capital_absent in E by assumption.
      injection E as <-. cbn [verification].
      apply Q_verify_balanced. cbn. ring.
    + apply known_values_absent_liabilities in Hk. destruct Hk as (c' & Ec & Ha & Hc).
      injection Ec as <-.
      rewrite solve_liabilities_absent in E by assumption.
      injection E as <-. cbn [verification].
      apply Q_verify_balanced. cbn. ring.
    + apply known_values_absent_assets in Hk.
      destruct Hk as (l' & c' & El & Ec & Hl & Hc).
      injection El as <-. injection Ec as <-.
      rewrite solve_assets_absent in E by assumption.
      injection E as <-. cbn [verification].
      apply Q_verify_balanced. cbn. ring.
Qed.

(** The third practice problem in exact arithmetic: opening capital
    2,00,000, profit 50,000, drawings 30,000 and assets 3,00,000 leave
    liabilities to compute, and the verification does not fail. *)
Lemma verification_when_nonzero_witness :
  exists out,
    solve_equation (Some (300000 # 1)) None (Some (200000 # 1))
      (30000 # 1) (0 # 1) (50000 # 1) = Solved out
    /\ (verification out = None \/ verification out = Some Verified).
Proof.
  eexists. split.
  - vm_compute. reflexivity.
  - refine (proj2 verification_when_nonzero
              (Some (300000 # 1)) None (Some (200000 # 1))
              (30000 # 1) (0 # 1) (50000 # 1) _ _ _).
    + vm_compute. reflexivity.
    + vm_compute. reflexivity.
Defined.

(** ** GST amounts *)

Section TaxSplitterFacts.
Context {F : Type} `{Number F} `{StrOps}.
Local Open Scope num_scope.

(** The result of a run whose divisor is not zero. *)
Lemma calculate_gst_ok (amount : F) (rate : Z)
    (amount_type transaction_type from_state to_state : string) (reverse_charge : bool) :
  eqb (of_Z 1 + of_Z rate / of_Z 100) (of_Z 0) = false ->
  exists r,
    calculate_and_display_gst amount rate amount_type transaction_type
      from_state to_state reverse_charge = Ok r
    /\ tax_formulas amount rate amount_type r
    /\ is_interstate r = determine_interstate transaction_type from_state to_state
    /\ (cgst r, sgst r, igst r) = gst_split (is_interstate r) (gst_amount r).
Proof.
  intro Hd. unfold calculate_and_display_gst, gst_amounts, tax_formulas, pdiv.
  rewrite Hd.
  destruct (String.eqb amount_type "Inclusive of GST"); cbn [bind];
    destruct (gst_split _ _) as [[c s] i] eqn:E;
    eexists; (split; [reflexivity|]); cbn; rewrite E; auto.
Qed.


Lemma calculate_gst_inversion (amount : F) (rate : Z)
    (amount_type transaction_type from_state to_state : string) (reverse_charge : bool)
    (r : gst_result) :
  calculate_and_display_gst amount rate amount_type transaction_type
    from_state to_state reverse_charge = Ok r ->
  tax_formulas amount rate amount_type r
  /\ is_interstate r = determine_interstate transaction_type from_state to_state
  /\ (cgst r, sgst r, igst r) = gst_split (is_interstate r) (gst_amount r).
Proof.
  unfold calculate_and_display_gst, gst_amounts, tax_formulas, pdiv.
  destruct (String.eqb amount_type "Inclusive of GST").
  - destruct (eqb (of_Z 1 + of_Z rate / of_Z 100) (of_Z 0)); cbn [bind]; [discriminate|].
    destruct (gst_split _ _) as [[c s] i] eqn:E. intro E'. injection E' as <-.
    cbn. rewrite E. auto.
  - cbn [bind]. destruct (gst_split _ _) as [[c s] i] eqn:E. intro E'. injection E' as <-.
    cbn. rewrite E. auto.
Qed.

End TaxSplitterFacts.

(** The divisor [1 + rate/100] of a legal rate is not zero, on binary64
    and in exact arithmetic. *)
Lemma float_divisor_nonzero (rate : Z) :
  In rate legal_rates ->
  eqb (add (of_Z 1) (div (of_Z rate) (of_Z 100)) : float) (of_Z 0) = false.
Proof.
  intro Hin. repeat (destruct Hin as [<-|Hin]; [vm_compute; reflexivity|]).
  destruct Hin.
Qed.

Lemma Q_divisor_nonzero (rate : Z) :
  (0 <= rate)%Z ->
  eqb (add (of_Z 1) (div (of_Z rate) (of_Z 100)) : Q) (of_Z 0) = false.
Proof.
  intro Hr. destruct (eqb _ _) eqn:E; [|reflexivity].
  apply Q_eqb_true in E. cbn [add div of_Z Q_number] in E.
  assert (Hq : (0 <= inject_Z rate)%Q).
  { change 0%Q with (inject_Z 0). rewrite <- Zle_Qle. exact Hr. }
  exfalso. revert E Hq. generalize (inject_Z rate). intros q E Hq.
  unfold Qdiv in E. change (/ inject_Z 100)%Q with (1 # 100)%Q in E.
  change (inject_Z 1) with 1%Q in E. change (inject_Z 0) with 0%Q in E.
  lra.
Qed.

Lemma legal_rate_nonneg (rate : Z) : In rate legal_rates -> (0 <= rate)%Z.
Proof.
  intro Hin. repeat (destruct Hin as [<-|Hin]; [lia|]). destruct Hin.
Qed.

Ltac q_ops := cbn [add sub mul div abs of_Z tol eqb ltb leb Q_number] in *.

Lemma Q_rate_fraction (rate : Z) :
  (of_Z rate / of_Z 100 == inject_Z rate * (1 # 100))%Q.
Proof. q_ops. unfold Qdiv. reflexivity. Qed.

(** ** GST in exact arithmetic *)

Section QTax.
Context `{StrOps}.

(** In exact arithmetic: the amounts of a result, with [k] the rate as a fraction. *)
Lemma Q_gst_amounts (amount : Q) (rate : Z)
    (amount_type transaction_type from_state to_state : string) (reverse_charge : bool)
    (r : gst_result) :
  calculate_and_display_gst amount rate amount_type transaction_type
    from_state to_state reverse_charge = Ok r ->
  (0 <= rate)%Z ->
  let k := (inject_Z rate * (1 # 100))%Q in
  (if String.eqb amount_type "Inclusive of GST"
   then (basic_amount r * (1 + k) == amount)%Q
   else (basic_amount r == amount)%Q)
  /\ (if String.eqb amount_type "Inclusive of GST"
      then (gst_amount r == amount - basic_amount r)%Q
      else (gst_amount r == amount * k)%Q)
  /\ (total_amount r == basic_amount r + gst_amount r)%Q.
Proof.
  intros E Hr k. apply calculate_gst_inversion in E.
  destruct E as ((Hf & Ht) & _). rewrite Ht. clear Ht.
  assert (Hk : (0 <= k)%Q).
  { unfold k. assert (0 <= inject_Z rate)%Q by (change 0%Q with (inject_Z 0); rewrite <- Zle_Qle; exact Hr). lra. }
  destruct (String.eqb amount_type "Inclusive of GST").
  - destruct Hf as [Hb Hg]. rewrite Hg, Hb. q_ops.
    repeat split; try reflexivity.
    change (inject_Z 1) with 1%Q. unfold Qdiv at 2. change (/ inject_Z 100)%Q with (1 # 100)%Q. fold k.
    field. lra.
  - destruct Hf as [Hb Hg]. rewrite Hg, Hb. q_ops.
    repeat split; reflexivity.
Qed.

Lemma Q_gst_split (interstate : bool) (g : Q) :
  let '(c, s, i) := gst_split interstate g in
  (c + s + i == g)%Q
  /\ (if interstate then (c == 0 /\ s == 0 /\ i == g)%Q
      else (c == g * (1 # 2) /\ s == g * (1 # 2) /\ i == 0)%Q).
Proof.
  destruct interstate; cbn [gst_split]; q_ops.
  - change (inject_Z 0) with 0%Q. repeat split; try reflexivity. lra.
  - change (inject_Z 0) with 0%Q. unfold Qdiv. change (/ inject_Z 2)%Q with (1 # 2)%Q.
    repeat split; try reflexivity. lra.
Qed.


(** At rate 0 the basic amount is the amount and the tax is zero. *)
Lemma Q_gst_zero_rate (amount : Q)
    (amount_type transaction_type from_state to_state : string) (reverse_charge : bool)
    (r : gst_result) :
  calculate_and_display_gst amount 0 amount_type transaction_type
    from_state to_state reverse_charge = Ok r ->
  (basic_amount r == amount)%Q /\ (gst_amount r == 0)%Q.
Proof.
  intro E.
  apply Q_gst_amounts in E; [|lia]. destruct E as (Hb & Hg & _).
  change (inject_Z 0 * (1 # 100))%Q with (0 # 100)%Q in Hb, Hg.
  destruct (String.eqb amount_type "Inclusive of GST").
  - assert (Hb' : (basic_amount r == amount)%Q) by lra.
    split; [exact Hb'|]. rewrite Hg. lra.
  - split; [exact Hb|]. rewrite Hg. lra.
Qed.
End QTax.


(** Rate 0 on binary64: nothing is added to a finite amount above zero. *)
Lemma float_zero_rate `{StrOps} (amount : float)
    (amount_type transaction_type from_state to_state : string) (reverse_charge : bool) :
  ltb (of_Z 0) amount = true -> finite amount = true ->
  calculate_and_display_gst amount 0 amount_type transaction_type
    from_state to_state reverse_charge
  = Ok {| is_interstate := determine_interstate transaction_type from_state to_state;
          basic_amount := amount; gst_amount := of_Z 0; total_amount := amount;
          cgst := of_Z 0; sgst := of_Z 0; igst := of_Z 0;
          journal_entries_shown := negb reverse_charge |}.
Proof.
  intros Ha Hfin. unfold calculate_and_display_gst, gst_amounts, pdiv.
  change (add (of_Z 1) (div (of_Z 0) (of_Z 100)) : float) with (of_Z 1 : float).
  change (div (of_Z 0) (of_Z 100) : float) with (of_Z 0 : float).
  change (eqb (of_Z 1 : float) (of_Z 0)) with false.
  destruct (String.eqb amount_type "Inclusive of GST"); cbn [bind].
  - rewrite float_div_one, (float_sub_self amount Hfin), (float_add_zero_r amount Ha).
    destruct (determine_interstate transaction_type from_state to_state);
      reflexivity.
  - rewrite (float_mul_zero amount Ha Hfin), (float_add_zero_r amount Ha).
    destruct (determine_interstate transaction_type from_state to_state);
      reflexivity.
Qed.

(** C4.  For every amount and every legal rate the run divides by no zero
    and its amounts follow the formulas: inclusive,
    [basic = amount / (1 + rate/100)] and [tax = amount - basic];
    exclusive, [basic = amount] and [tax = amount * (rate/100)]; in both,
    [total = basic + tax].  This holds on binary64 and in exact
    arithmetic.  At rate 0 the basic amount is the amount and every tax
    component is zero: in exact arithmetic for every amount, and on
    binary64 for every finite amount above zero. *)
Theorem tax_amounts :
  (forall (S : StrOps) (amount : float) (rate : Z)
          (amount_type transaction_type from_state to_state : string)
          (reverse_charge : bool),
     In rate legal_rates ->
     exists r,
       calculate_and_display_gst amount rate amount_type transaction_type
         from_state to_state reverse_charge = Ok r
       /\ tax_formulas amount rate amount_type r)
  /\ (forall (S : StrOps) (amount : Q) (rate : Z)
             (amount_type transaction_type from_state to_state : string)
             (reverse_charge : bool),
        In rate legal_rates ->
        exists r,
          calculate_and_display_gst amount rate amount_type transaction_type
            from_state to_state reverse_charge = Ok r
          /\ tax_formulas amount rate amount_type r
          /\ (rate = 0%Z ->
              (basic_amount r == amount)%Q /\ (gst_amount r == 0)%Q
              /\ (cgst r == 0)%Q /\ (sgst r == 0)%Q /\ (igst r == 0)%Q
              /\ (total_amount r == amount)%Q))
  /\ (forall (S : StrOps) (amount : float)
             (amount_type transaction_type from_state to_state : string)
             (reverse_charge : bool),
        ltb (of_Z 0) amount = true -> finite amount = true ->
        exists r,
          calculate_and_display_gst amount 0 amount_type transaction_type
            from_state to_state reverse_charge = Ok r
          /\ basic_amount r = amount /\ gst_amount r = of_Z 0
          /\ cgst r = of_Z 0 /\ sgst r = of_Z 0 /\ igst r = of_Z 0
          /\ total_amount r = amount).
Proof.
  split; [|split].
  - intros S amount rate amount_type transaction_type from_state to_state
      reverse_charge Hin.
    destruct (calculate_gst_ok amount rate amount_type transaction_type from_state
                to_state reverse_charge (float_divisor_nonzero rate Hin))
      as (r & E & Hf & _).
    exists r. auto.
  - intros S amount rate amount_type transaction_type from_state to_state
      reverse_charge Hin.
    destruct (calculate_gst_ok amount rate amount_type transaction_type from_state
                to_state reverse_charge
                (Q_divisor_nonzero rate (legal_rate_nonneg rate Hin)))
      as (r & E & Hf & _ & Hs).
    exists r. split; [exact E|]. split; [exact Hf|].
    intros ->. destruct (Q_gst_zero_rate _ _ _ _ _ _ _ E) as [Hb Hg].
    destruct Hf as [_ Ht].
    pose proof (Q_gst_split (is_interstate r) (gst_amount r)) as Hsplit.
    rewrite <- Hs in Hsplit. destruct Hsplit as [_ Hsplit].
    assert (Htot : (total_amount r == amount)%Q).
    { rewrite Ht. q_ops. lra. }
    destruct (is_interstate r); destruct Hsplit as (Hc & Hs' & Hi);
      repeat split; try assumption; lra.
  - intros S amount amount_type transaction_type from_state to_state
      reverse_charge Ha Hfin.
    eexists. split.
    + apply float_zero_rate; assumption.
    + cbn. repeat split; reflexivity.
Qed.

(** ₹1,180 inclusive of 18% GST, on binary64. *)
Lemma tax_amounts_witness :
  exists r,
    calculate_and_display_gst (of_Z 1180 : float) 18 "Inclusive of GST"
      "Intrastate (Within State)" "" "" false = Ok r
    /\ tax_formulas (of_Z 1180 : float) 18 "Inclusive of GST" r.
Proof.
  refine (proj1 tax_amounts ascii_str_ops (of_Z 1180) 18%Z "Inclusive of GST"
            "Intrastate (Within State)" "" "" false _).
  vm_compute. auto.
Defined.

(** Rate 0 on binary64: ₹1,000 inclusive of GST is ₹1,000 basic, no tax. *)
Example zero_rate_inclusive_binary64 :
  calculate_and_display_gst (of_Z 1000 : float) 0 "Inclusive of GST"
    "Interstate (Between States)" "" "" false
  = Ok {| is_interstate := true; basic_amount := of_Z 1000; gst_amount := of_Z 0;
          total_amount := of_Z 1000; cgst := of_Z 0; sgst := of_Z 0; igst := of_Z 0;
          journal_entries_shown := true |}.
Proof. vm_compute. reflexivity. Qed.

(** ** GST split *)




(** ** Round trip *)




(** ** Jurisdiction *)

(** C7.  The transaction is interstate when both state strings are not
    empty and differ once stripped and lowered; in every other case, and
    in particular when both are empty, the result is what the
    transaction-type selector says.  The GST result carries that
    verdict. *)
Theorem jurisdiction_precedence :
  forall (S : StrOps) (transaction_type from_state to_state : string),
    let selector := String.eqb transaction_type "Interstate (Between States)" in
    let differ :=
      negb (String.eqb (lower (strip from_state)) (lower (strip to_state))) in
    (nonempty from_state = true -> nonempty to_state = true -> differ = true ->
     determine_interstate transaction_type from_state to_state = true)
    /\ (nonempty from_state && nonempty to_state && differ = false ->
        determine_interstate transaction_type from_state to_state = selector)
    /\ (from_state = "" -> to_state = "" ->
        determine_interstate transaction_type from_state to_state = selector)
    /\ (forall (F : Type) (N : Number F) (amount : F) (rate : Z) (amount_type : string)
               (reverse_charge : bool) (r : gst_result),
          calculate_and_display_gst amount rate amount_type transaction_type
            from_state to_state reverse_charge = Ok r ->
          is_interstate r = determine_interstate transaction_type from_state to_state).
Proof.
  intros S transaction_type from_state to_state selector differ.
  unfold determine_interstate. fold differ. fold selector. repeat split.
  - intros -> -> ->. reflexivity.
  - intros ->. destruct selector; reflexivity.
  - intros -> ->. cbn. destruct selector; reflexivity.
  - intros F N amount rate amount_type reverse_charge r E.
    apply calculate_gst_inversion in E. destruct E as (_ & E & _). exact E.
Qed.

(** Two different states override the intrastate selector. *)
Lemma jurisdiction_precedence_witness :
  determine_interstate "Intrastate (Within State)" " Maharashtra" "GUJARAT " = true.
Proof.
  refine (proj1 (jurisdiction_precedence ascii_str_ops "Intrastate (Within State)"
                   " Maharashtra" "GUJARAT ") _ _ _); reflexivity.
Defined.

(** ** Journal entries *)

Section JournalFacts.
Context {F : Type} `{Number F}.

Lemma display_report (entries : list (posting F)) :
  report (display_journal_entry entries)
  = if balanced (total Dr_Amount entries) (total Cr_Amount entries)
    then Balanced else NotBalanced.
Proof. reflexivity. Qed.

Lemma generate_custom_entry (e : posting F) (entries : list (posting F)) :
  custom_step (e :: entries) GenerateCustomEntry
  = if balanced (total Dr_Amount (e :: entries)) (total Cr_Amount (e :: entries))
    then (nil, Displayed (display_journal_entry (e :: entries)))
    else (e :: entries, Unbalanced).
Proof. reflexivity. Qed.

Lemma generate_balanced (e : posting F) (entries : list (posting F)) :
  balanced (total Dr_Amount (e :: entries)) (total Cr_Amount (e :: entries)) = true ->
  custom_step (e :: entries) GenerateCustomEntry
    = (nil, Displayed (display_journal_entry (e :: entries)))
  /\ report (display_journal_entry (e :: entries)) = Balanced.
Proof.
  intro E. rewrite generate_custom_entry, display_report, E. split; reflexivity.
Qed.

End JournalFacts.

(** C9, counterexample.  A single debit of ₹0.01, the smallest amount the
    form accepts: debits and credits differ by exactly the tolerance, not
    by more, and the entry is refused as unbalanced.  (On binary64 equal
    sums are refused too when they overflow: two debits and two credits
    of 2^1023 each sum to infinity on both sides.) *)
Lemma difference_of_exactly_tolerance_fails :
  custom_step [] (AddEntry "Cash" "Debit" (tol : float))
  = ([debit "Cash" tol], Added)
  /\ custom_step [debit "Cash" (tol : float)] GenerateCustomEntry
     = ([debit "Cash" tol], Unbalanced)
  /\ ltb (tol : float)
         (abs (sub (total Dr_Amount [debit "Cash" (tol : float)])
                   (total Cr_Amount [debit "Cash" (tol : float)]))) = false
  /\ report (display_journal_entry [debit "Cash" (tol : float)]) = NotBalanced
  /\ eqb (total Dr_Amount [debit "Plant" huge; debit "Land" huge;
                           credit "To Capital" huge; credit "To Loan" huge])
         (total Cr_Amount [debit "Plant" huge; debit "Land" huge;
                           credit "To Capital" huge; credit "To Loan" huge]) = true
  /\ snd (custom_step [debit "Plant" huge; debit "Land" huge;
                       credit "To Capital" huge; credit "To Loan" huge]
            GenerateCustomEntry) = Unbalanced.
Proof. repeat split; vm_compute; reflexivity. Qed.

(** C9, amended.  The validation of a custom entry fails with
    [Unbalanced] exactly when [|sum of debits - sum of credits| < 0.01]
    is false, so a difference of exactly 0.01 fails too; otherwise the
    entry is displayed.  The postings are never altered: a refused list
    stays as it is, and the list displayed is the list given.
    [display_journal_entry] reports by the same test.  Every posting list
    whose sums are equal passes, in exact arithmetic and, the sum being
    finite, on binary64. *)
Theorem unbalanced_iff_not_within_tolerance :
  (forall (F : Type) (N : Number F) (e : posting F) (entries : list (posting F)),
     let l := e :: entries in
     let dr := total Dr_Amount l in
     let cr := total Cr_Amount l in
     (custom_step l GenerateCustomEntry = (l, Unbalanced)
      <-> ltb (abs (sub dr cr)) tol = false)
     /\ (ltb (abs (sub dr cr)) tol = true ->
         custom_step l GenerateCustomEntry = (nil, Displayed (display_journal_entry l)))
     /\ shown (display_journal_entry l) = l
     /\ (report (display_journal_entry l) = NotBalanced
         <-> ltb (abs (sub dr cr)) tol = false))
  /\ (forall (e : posting Q) (entries : list (posting Q)),
        let l := e :: entries in
        eqb (total Dr_Amount l) (total Cr_Amount l) = true ->
        custom_step l GenerateCustomEntry = (nil, Displayed (display_journal_entry l))
        /\ report (display_journal_entry l) = Balanced)
  /\ (forall (e : posting float) (entries : list (posting float)),
        let l := e :: entries in
        eqb (total Dr_Amount l) (total Cr_Amount l) = true ->
        finite (total Dr_Amount l) = true ->
        custom_step l GenerateCustomEntry = (nil, Displayed (display_journal_entry l))
        /\ report (display_journal_entry l) = Balanced).
Proof.
  split; [|split].
  - intros F N e entries l dr cr.
    subst l dr cr. rewrite generate_custom_entry, display_report.
    unfold balanced.
    destruct (ltb (abs (sub (total Dr_Amount (e :: entries))
                            (total Cr_Amount (e :: entries)))) tol); repeat split;
      try reflexivity; try discriminate; intros; try reflexivity; try discriminate.
  - intros e entries l E. subst l. apply generate_balanced.
    apply Q_within_tol_of_eq, Q_eqb_true, E.
  - intros e entries l E Hfin. subst l. apply generate_balanced.
    apply float_balanced_of_eqb; assumption.
Qed.

(** ₹1,000 received in cash for sales, on binary64. *)
Lemma unbalanced_iff_not_within_tolerance_witness :
  custom_step [debit "Cash" (of_Z 1000 : float); credit "To Sales" (of_Z 1000)]
    GenerateCustomEntry
  = (nil, Displayed (display_journal_entry
                       [debit "Cash" (of_Z 1000 : float); credit "To Sales" (of_Z 1000)]))
  /\ report (display_journal_entry
               [debit "Cash" (of_Z 1000 : float); credit "To Sales" (of_Z 1000)])
     = Balanced.
Proof.
  refine (proj2 (proj2 unbalanced_iff_not_within_tolerance)
            (debit "Cash" (of_Z 1000)) [credit "To Sales" (of_Z 1000)] _ _).
  - vm_compute. reflexivity.
  - vm_compute. reflexivity.
Defined.

(** *** The predefined entries, in exact arithmetic *)

Lemma Q_truthy_pos (x : Q) : (0 < x)%Q -> truthy x = true.
Proof. intro Hx. apply Q_truthy. lra. Qed.

Lemma Q_falsy_zero : truthy (of_Z 0 : Q) = false.
Proof. reflexivity. Qed.

Lemma entry_rate_pos (rate : Z) : In rate entry_rates -> (0 < rate)%Z.
Proof.
  intro Hin. repeat (destruct Hin as [<-|Hin]; [lia|]). destruct Hin.
Qed.

Lemma Q_entry_ok (entries : list (posting Q)) :
  forallb one_sided entries = true ->
  (total Dr_Amount entries == total Cr_Amount entries)%Q ->
  entry_ok entries.
Proof.
  intros Hone Htot. split; [exact Hone|]. split; [apply Q_eqb_true; exact Htot|].
  rewrite display_report. unfold balanced.
  rewrite (Q_within_tol_of_eq _ _ Htot). reflexivity.
Qed.

(** The basic amount and the tax of an inclusive amount above zero, at a
    rate above zero, are both above zero. *)
Lemma Q_inclusive_parts (amount : Q) (rate : Z) :
  (0 < amount)%Q -> (0 < rate)%Z ->
  exists b : Q,
    pdiv amount (add (of_Z 1) (div (of_Z rate) (of_Z 100))) = Ok b
    /\ (0 < b)%Q /\ (0 < sub amount b)%Q.
Proof.
  intros Ha Hr. unfold pdiv.
  rewrite (Q_divisor_nonzero rate (Z.lt_le_incl _ _ Hr)).
  eexists. split; [reflexivity|]. q_ops.
  set (d := (inject_Z 1 + inject_Z rate / inject_Z 100)%Q).
  assert (Hd : (1 < d)%Q).
  { assert (Hq : (0 < inject_Z rate)%Q)
      by (change 0%Q with (inject_Z 0); rewrite <- Zlt_Qlt; exact Hr).
    assert (Ed : (d == 1 + inject_Z rate * (1 # 100))%Q) by apply Qeq_refl.
    rewrite Ed. lra. }
  assert (Hb : (amount / d * d == amount)%Q) by (field; lra).
  revert Hb. generalize (amount / d)%Q. intros b Hb.
  assert (Hk : (b * d == b + b * (d - 1))%Q) by ring.
  assert (Hpos : (0 < b)%Q).
  { apply Qnot_le_lt. intro Hle.
    assert (0 <= (- b) * (d - 1))%Q by (apply Qmult_le_0_compat; lra).
    lra. }
  split; [exact Hpos|].
  assert (0 < b * (d - 1))%Q by (apply Qmult_lt_0_compat; lra).
  lra.
Qed.

Section QJournal.
Local Open Scope Q_scope.

Lemma Q_total_two (p q : posting Q) :
  (total Dr_Amount [p; q] == Dr_Amount p + Dr_Amount q)
  /\ (total Cr_Amount [p; q] == Cr_Amount p + Cr_Amount q).
Proof. unfold total. cbn [fold_left]. q_ops. change (inject_Z 0) with 0. split; lra. Qed.

Lemma Q_total_three (p q r : posting Q) :
  (total Dr_Amount [p; q; r] == Dr_Amount p + Dr_Amount q + Dr_Amount r)
  /\ (total Cr_Amount [p; q; r] == Cr_Amount p + Cr_Amount q + Cr_Amount r).
Proof. unfold total. cbn [fold_left]. q_ops. change (inject_Z 0) with 0. split; lra. Qed.

(** A debit and a credit of the same amount above zero. *)
Lemma Q_simple_entry (dr_account cr_account : string) (amount : Q) :
  0 < amount ->
  entry_ok [debit dr_account amount; credit cr_account amount].
Proof.
  intros Ha. apply Q_entry_ok.
  - cbn [forallb]. unfold one_sided, debit, credit. cbn [Dr_Amount Cr_Amount].
    rewrite (Q_truthy_pos _ Ha), Q_falsy_zero. reflexivity.
  - destruct (Q_total_two (debit dr_account amount) (credit cr_account amount)) as [Hd Hc].
    rewrite Hd, Hc. cbn [debit credit Dr_Amount Cr_Amount]. q_ops.
    change (inject_Z 0) with 0. lra.
Qed.

(** Two debits against one credit of their sum, as in a purchase with GST. *)
Lemma Q_gst_purchase_entry (a1 a2 cr_account : string) (amount b : Q) :
  0 < b -> 0 < sub amount b ->
  entry_ok [debit a1 b; debit a2 (sub amount b); credit cr_account amount].
Proof.
  intros Hb Hg. apply Q_entry_ok.
  - cbn [forallb]. unfold one_sided, debit, credit. cbn [Dr_Amount Cr_Amount].
    rewrite (Q_truthy_pos b Hb), (Q_truthy_pos (sub amount b) Hg), Q_falsy_zero.
    rewrite (Q_truthy_pos amount) by (q_ops; lra). reflexivity.
  - destruct (Q_total_three (debit a1 b) (debit a2 (sub amount b))
                (credit cr_account amount)) as [Hd Hc].
    rewrite Hd, Hc. cbn [debit credit Dr_Amount Cr_Amount]. q_ops.
    change (inject_Z 0) with 0. lra.
Qed.

(** One debit against two credits, as in a sale with GST. *)
Lemma Q_gst_sales_entry (dr_account a1 a2 : string) (amount b : Q) :
  0 < b -> 0 < sub amount b ->
  entry_ok [debit dr_account amount; credit a1 b; credit a2 (sub amount b)].
Proof.
  intros Hb Hg. apply Q_entry_ok.
  - cbn [forallb]. unfold one_sided, debit, credit. cbn [Dr_Amount Cr_Amount].
    rewrite (Q_truthy_pos b Hb), (Q_truthy_pos (sub amount b) Hg), Q_falsy_zero.
    rewrite (Q_truthy_pos amount) by (q_ops; lra). reflexivity.
  - destruct (Q_total_three (debit dr_account amount) (credit a1 b)
                (credit a2 (sub amount b))) as [Hd Hc].
    rewrite Hd, Hc. cbn [debit credit Dr_Amount Cr_Amount]. q_ops.
    change (inject_Z 0) with 0. lra.
Qed.

End QJournal.

(** On binary64: a debit and a credit of the same finite amount above
    zero. *)
Lemma float_simple_entry (dr_account cr_account : string) (amount : float) :
  ltb (of_Z 0) amount = true -> finite amount = true ->
  entry_ok [debit dr_account amount; credit cr_account amount].
Proof.
  intros Ha Hfin.
  assert (Hdr : total Dr_Amount [debit dr_account amount; credit cr_account amount]
                = amount).
  { unfold total. cbn [fold_left debit credit Dr_Amount].
    rewrite (float_add_zero_l amount Ha). apply float_add_zero_r. exact Ha. }
  assert (Hcr : total Cr_Amount [debit dr_account amount; credit cr_account amount]
                = amount).
  { unfold total. cbn [fold_left debit credit Cr_Amount].
    change (add (of_Z 0) (of_Z 0) : float) with (of_Z 0 : float).
    apply float_add_zero_l. exact Ha. }
  split; [|split].
  - cbn [forallb]. unfold one_sided, debit, credit. cbn [Dr_Amount Cr_Amount].
    rewrite (float_positive_truthy amount Ha). reflexivity.
  - rewrite Hdr, Hcr. apply float_eqb_refl. exact Ha.
  - rewrite display_report, Hdr, Hcr, (float_within_tol_self amount Hfin). reflexivity.
Qed.

Lemma float_form_amount_positive (a : float) :
  leb tol a = true -> finite a = true -> ltb (of_Z 0) a = true.
Proof.
  intros Hle Hfin.
  destruct (float_form_amount a Hle Hfin) as (ma & ea & Ea & _).
  apply (float_finite_positive a ma ea Ea).
Qed.

(** On binary64: two debits against one credit of their sum. *)
Lemma float_gst_purchase_entry (a1 a2 cr_account : string) (amount b : float) :
  ltb (of_Z 0) amount = true -> finite amount = true ->
  ltb (of_Z 0) b = true -> ltb (of_Z 0) (sub amount b) = true ->
  add b (sub amount b) = amount ->
  entry_ok [debit a1 b; debit a2 (sub amount b); credit cr_account amount].
Proof.
  intros Ha Hfin Hb Hg Hsum.
  assert (Hdr : total Dr_Amount
                  [debit a1 b; debit a2 (sub amount b); credit cr_account amount]
                = amount).
  { unfold total. cbn [fold_left debit credit Dr_Amount].
    rewrite (float_add_zero_l b Hb), Hsum. apply float_add_zero_r. exact Ha. }
  assert (Hcr : total Cr_Amount
                  [debit a1 b; debit a2 (sub amount b); credit cr_account amount]
                = amount).
  { unfold total. cbn [fold_left debit credit Cr_Amount].
    change (add (add (of_Z 0) (of_Z 0)) (of_Z 0) : float) with (of_Z 0 : float).
    apply float_add_zero_l. exact Ha. }
  split; [|split].
  - cbn [forallb]. unfold one_sided, debit, credit. cbn [Dr_Amount Cr_Amount].
    rewrite (float_positive_truthy amount Ha), (float_positive_truthy b Hb),
      (float_positive_truthy _ Hg). reflexivity.
  - rewrite Hdr, Hcr. apply float_eqb_refl. exact Ha.
  - rewrite display_report, Hdr, Hcr, (float_within_tol_self amount Hfin). reflexivity.
Qed.

(** On binary64: one debit against two credits that add up to it. *)
Lemma float_gst_sales_entry (dr_account a1 a2 : string) (amount b : float) :
  ltb (of_Z 0) amount = true -> finite amount = true ->
  ltb (of_Z 0) b = true -> ltb (of_Z 0) (sub amount b) = true ->
  add b (sub amount b) = amount ->
  entry_ok [debit dr_account amount; credit a1 b; credit a2 (sub amount b)].
Proof.
  intros Ha Hfin Hb Hg Hsum.
  assert (Hdr : total Dr_Amount
                  [debit dr_account amount; credit a1 b; credit a2 (sub amount b)]
                = amount).
  { unfold total. cbn [fold_left debit credit Dr_Amount].
    rewrite (float_add_zero_l amount Ha), !(float_add_zero_r amount Ha). reflexivity. }
  assert (Hcr : total Cr_Amount
                  [debit dr_account amount; credit a1 b; credit a2 (sub amount b)]
                = amount).
  { unfold total. cbn [fold_left debit credit Cr_Amount].
    change (add (of_Z 0) (of_Z 0) : float) with (of_Z 0 : float).
    rewrite (float_add_zero_l b Hb). exact Hsum. }
  split; [|split].
  - cbn [forallb]. unfold one_sided, debit, credit. cbn [Dr_Amount Cr_Amount].
    rewrite (float_positive_truthy amount Ha), (float_positive_truthy b Hb),
      (float_positive_truthy _ Hg). reflexivity.
  - rewrite Hdr, Hcr. apply float_eqb_refl. exact Ha.
  - rewrite display_report, Hdr, Hcr, (float_within_tol_self amount Hfin). reflexivity.
Qed.

(** With GST, on binary64. *)
Section FloatGstHandlers.
Variables (w : widgets) (amount : float).
Hypothesis amount_form : leb tol amount = true.
Hypothesis amount_finite : finite amount = true.
Hypothesis rate_offered : In (gst_rate w) entry_rates.
Hypothesis with_gst : include_gst w = true.

Lemma float_gst_purchase : handler_ok (handle_purchase_transaction w amount).
Proof.
  unfold handle_purchase_transaction. rewrite with_gst.
  destruct (float_inclusive_parts amount (gst_rate w) amount_form amount_finite
              rate_offered) as (b & -> & Hb & Hg & Hsum).
  pose proof (float_form_amount_positive amount amount_form amount_finite) as Ha.
  cbn [bind].
  destruct (String.eqb (purchase_type w) "Credit Purchase");
    eexists; (split; [reflexivity|]); apply float_gst_purchase_entry; assumption.
Qed.

Lemma float_gst_sales : handler_ok (handle_sales_transaction w amount).
Proof.
  unfold handle_sales_transaction. rewrite with_gst.
  destruct (float_inclusive_parts amount (gst_rate w) amount_form amount_finite
              rate_offered) as (b & -> & Hb & Hg & Hsum).
  pose proof (float_form_amount_positive amount amount_form amount_finite) as Ha.
  cbn [bind].
  destruct (String.eqb (sales_type w) "Credit Sales");
    eexists; (split; [reflexivity|]); apply float_gst_sales_entry; assumption.
Qed.

End FloatGstHandlers.

(** *** The handlers

    The handlers that do not divide build a debit and a credit of the
    amount; they are as good as such a pair is in the arithmetic at hand. *)

Section PlainHandlers.
Context {F : Type} `{Number F}.
Variables (w : widgets) (amount : F).
Hypothesis simple_entry :
  forall dr_account cr_account : string,
    entry_ok [debit dr_account amount; credit cr_account amount].

Lemma cash_bank_entry : handler_ok (handle_cash_bank_transaction w amount).
Proof.
  unfold handle_cash_bank_transaction.
  destruct (String.eqb (transaction_nature w) "Receipt");
    eexists; (split; [reflexivity|]); apply simple_entry.
Qed.

Lemma plain_purchase_entry :
  include_gst w = false -> handler_ok (handle_purchase_transaction w amount).
Proof.
  intro Eg. unfold handle_purchase_transaction. rewrite Eg. cbn [bind].
  destruct (String.eqb (purchase_type w) "Credit Purchase");
    eexists; (split; [reflexivity|]); apply simple_entry.
Qed.

Lemma plain_sales_entry :
  include_gst w = false -> handler_ok (handle_sales_transaction w amount).
Proof.
  intro Eg. unfold handle_sales_transaction. rewrite Eg.
  destruct (String.eqb (sales_type w) "Credit Sales");
    eexists; (split; [reflexivity|]); apply simple_entry.
Qed.

Lemma expense_entry : handler_ok (handle_expense_transaction w amount).
Proof.
  unfold handle_expense_transaction.
  destruct (String.eqb (payment_method w) "Credit");
    eexists; (split; [reflexivity|]); apply simple_entry.
Qed.

Lemma income_entry : handler_ok (handle_income_transaction w amount).
Proof.
  unfold handle_income_transaction.
  eexists; (split; [reflexivity|]); apply simple_entry.
Qed.

Lemma capital_entry : handler_ok (handle_capital_transaction w amount).
Proof.
  unfold handle_capital_transaction.
  destruct (String.eqb (capital_type w) "Capital Introduced"
            || String.eqb (capital_type w) "Additional Capital")%bool;
    eexists; (split; [reflexivity|]); apply simple_entry.
Qed.

(** The dispatch, for a run that does not divide. *)
Lemma plain_predefined_entry (transaction_type : string) :
  In transaction_type predefined_types ->
  uses_gst transaction_type w = false ->
  exists r, create_predefined_entry transaction_type w amount = Some r /\ handler_ok r.
Proof.
  intros Hin Hg. unfold predefined_types in Hin. cbn [In] in Hin.
  destruct Hin as [<-|[<-|[<-|[<-|[<-|[<-|[]]]]]]];
    eexists; (split; [reflexivity|]).
  - apply cash_bank_entry.
  - apply plain_purchase_entry. unfold uses_gst in Hg.
    destruct (include_gst w); [discriminate Hg|reflexivity].
  - apply plain_sales_entry. unfold uses_gst in Hg.
    destruct (include_gst w); [discriminate Hg|reflexivity].
  - apply expense_entry.
  - apply income_entry.
  - apply capital_entry.
Qed.

End PlainHandlers.

(** With GST, in exact arithmetic. *)
Section QGstHandlers.
Variables (w : widgets) (amount : Q).
Hypothesis amount_pos : (0 < amount)%Q.
Hypothesis rate_offered : In (gst_rate w) entry_rates.
Hypothesis with_gst : include_gst w = true.

Lemma Q_gst_purchase : handler_ok (handle_purchase_transaction w amount).
Proof.
  unfold handle_purchase_transaction. rewrite with_gst.
  destruct (Q_inclusive_parts amount (gst_rate w) amount_pos
              (entry_rate_pos _ rate_offered)) as (b & -> & Hb & Hg).
  cbn [bind].
  destruct (String.eqb (purchase_type w) "Credit Purchase");
    eexists; (split; [reflexivity|]); apply Q_gst_purchase_entry; assumption.
Qed.

Lemma Q_gst_sales : handler_ok (handle_sales_transaction w amount).
Proof.
  unfold handle_sales_transaction. rewrite with_gst.
  destruct (Q_inclusive_parts amount (gst_rate w) amount_pos
              (entry_rate_pos _ rate_offered)) as (b & -> & Hb & Hg).
  cbn [bind].
  destruct (String.eqb (sales_type w) "Credit Sales");
    eexists; (split; [reflexivity|]); apply Q_gst_sales_entry; assumption.
Qed.

End QGstHandlers.

(** C10.  For every predefined transaction type and every state of the
    widgets (the GST rate being one of those offered when GST is
    included), the handler raises nothing, each posting it builds has
    exactly one of its two amounts not zero, the debits and the credits
    have equal totals (equal, not only within the tolerance), and
    [display_journal_entry] reports the entry as balanced:
    - in exact arithmetic, for every amount above zero;
    - on binary64, for every finite amount from 0.01 up, the least amount
      the form accepts;
    - on binary64, for every finite amount above zero when the run does
      not divide (no purchase or sale with GST included). *)
Theorem predefined_entries_balance :
  (forall (transaction_type : string) (w : widgets) (amount : Q),
     In transaction_type predefined_types ->
     (0 < amount)%Q ->
     (include_gst w = true -> In (gst_rate w) entry_rates) ->
     exists entries,
       create_predefined_entry transaction_type w amount = Some (Ok entries)
       /\ entry_ok entries)
  /\ (forall (transaction_type : string) (w : widgets) (amount : float),
        In transaction_type predefined_types ->
        leb tol amount = true -> finite amount = true ->
        (include_gst w = true -> In (gst_rate w) entry_rates) ->
        exists entries,
          create_predefined_entry transaction_type w amount = Some (Ok entries)
          /\ entry_ok entries)
  /\ (forall (transaction_type : string) (w : widgets) (amount : float),
        In transaction_type predefined_types ->
        ltb (of_Z 0) amount = true -> finite amount = true ->
        uses_gst transaction_type w = false ->
        exists entries,
          create_predefined_entry transaction_type w amount = Some (Ok entries)
          /\ entry_ok entries).
Proof.
  split; [|split].
  - intros transaction_type w amount Hin Ha Hrate.
    assert (Hr : exists r, create_predefined_entry transaction_type w amount = Some r
                           /\ handler_ok r).
    { destruct (uses_gst transaction_type w) eqn:Eu.
      - unfold uses_gst in Eu. apply andb_true_iff in Eu. destruct Eu as [Eg Et].
        apply orb_true_iff in Et.
        destruct Et as [Et|Et]; apply String.eqb_eq in Et; subst transaction_type;
          eexists; (split; [reflexivity|]).
        + apply Q_gst_purchase; auto.
        + apply Q_gst_sales; auto.
      - apply plain_predefined_entry; [|exact Hin|exact Eu].
        intros dr_account cr_account. apply Q_simple_entry. exact Ha. }
    destruct Hr as (r & E & entries & -> & Hok). exists entries. auto.
  - intros transaction_type w amount Hin Ha Hfin Hrate.
    assert (Hr : exists r, create_predefined_entry transaction_type w amount = Some r
                           /\ handler_ok r).
    { destruct (uses_gst transaction_type w) eqn:Eu.
      - unfold uses_gst in Eu. apply andb_true_iff in Eu. destruct Eu as [Eg Et].
        apply orb_true_iff in Et.
        destruct Et as [Et|Et]; apply String.eqb_eq in Et; subst transaction_type;
          eexists; (split; [reflexivity|]).
        + apply float_gst_purchase; auto.
        + apply float_gst_sales; auto.
      - apply plain_predefined_entry; [|exact Hin|exact Eu].
        intros dr_account cr_account. apply float_simple_entry;
          [apply float_form_amount_positive|]; assumption. }
    destruct Hr as (r & E & entries & -> & Hok). exists entries. auto.
  - intros transaction_type w amount Hin Ha Hfin Eu.
    destruct (plain_predefined_entry w amount
                (fun dr cr => float_simple_entry dr cr amount Ha Hfin)
                transaction_type Hin Eu)
      as (r & E & entries & -> & Hok).
    exists entries. auto.
Qed.

(** A credit purchase of ₹1,180 including 18% GST, on binary64. *)
Lemma predefined_entries_balance_witness :
  exists entries,
    create_predefined_entry "Purchase Transaction" purchase_widgets (of_Z 1180 : float)
      = Some (Ok entries)
    /\ entry_ok entries.
Proof.
  refine (proj1 (proj2 predefined_entries_balance) "Purchase Transaction"
            purchase_widgets (of_Z 1180) _ _ _ _).
  - vm_compute. auto.
  - vm_compute. reflexivity.
  - vm_compute. reflexivity.
  - intros _. vm_compute. auto.
Defined.

(** The same purchase for ₹1,000, on binary64. *)
Example purchase_with_gst_binary64 :
  exists entries,
    create_predefined_entry "Purchase Transaction" purchase_widgets (of_Z 1000 : float)
      = Some (Ok entries)
    /\ entry_ok entries.
Proof. eexists. repeat split; vm_compute; reflexivity. Qed.


(** ** Currency formatting *)
















(** * Further properties of the code *)

(** ** Comparisons of binary64 with zero and with a constant *)

Lemma float_ltb_zero (x : float) :
  ltb x (of_Z 0) = match Prim2SF x with
                   | S754_infinity true | S754_finite true _ _ => true
                   | _ => false
                   end.
Proof.
  change (ltb x (of_Z 0)) with (PrimFloat.ltb x (of_Z 0)).
  rewrite FloatAxioms.ltb_spec, Prim2SF_zero.
  destruct (Prim2SF x) as [s|s| |s m e]; try destruct s; reflexivity.
Qed.

Lemma float_gtb_zero (x : float) :
  ltb (of_Z 0) x = match Prim2SF x with
                   | S754_infinity false | S754_finite false _ _ => true
                   | _ => false
                   end.
Proof.
  change (ltb (of_Z 0) x) with (PrimFloat.ltb (of_Z 0) x).
  rewrite FloatAxioms.ltb_spec, Prim2SF_zero.
  destruct (Prim2SF x) as [s|s| |s m e]; try destruct s; reflexivity.
Qed.

Lemma float_eqb_zero (x : float) :
  eqb x (of_Z 0) = match Prim2SF x with
                   | S754_zero _ => true
                   | _ => false
                   end.
Proof.
  change (eqb x (of_Z 0)) with (PrimFloat.eqb x (of_Z 0)).
  rewrite FloatAxioms.eqb_spec, Prim2SF_zero.
  destruct (Prim2SF x) as [s|s| |s m e]; try destruct s; reflexivity.
Qed.

(** A float equal to a finite constant other than zero is that constant. *)
Lemma float_eqb_finite (x c : float) (s : bool) (m : positive) (e : Z) :
  Prim2SF c = S754_finite s m e -> eqb x c = true -> x = c.
Proof.
  intros Hc E. apply float_sf_eq. rewrite Hc.
  change (eqb x c) with (PrimFloat.eqb x c) in E.
  rewrite FloatAxioms.eqb_spec, Hc in E.
  unfold SFeqb, SFcompare in E.
  destruct (Prim2SF x) as [sx|sx| |sx mx ex]; try discriminate E;
    try (destruct sx; discriminate E); try (destruct s; discriminate E).
  destruct sx, s; try discriminate E;
    destruct (Z.compare ex e) eqn:Ez; try discriminate E;
    destruct (Pos.compare_cont Eq mx m) eqn:Em; cbn in E; try discriminate E;
    apply Z.compare_eq in Ez; apply Pos.compare_eq in Em; subst; reflexivity.
Qed.

Ltac float_constant E :=
  match type of E with
  | eqb ?x ?c = true =>
      let Ex := fresh "Ex" in
      assert (Ex : x = c)
        by (eapply float_eqb_finite; [vm_compute; reflexivity|exact E]);
      subst x
  end.

(** ** The validators *)


(** X2.  On binary64 [validate_positive_number] accepts a number exactly when
    it is a NaN, or above zero (plus infinity included), or a zero of
    either sign with [allow_zero] set: a NaN passes both tests of the
    function. *)
Theorem validate_positive_number_binary64 :
  forall (x : float) (field_name : string) (allow_zero : bool),
    fst (validate_positive_number (PyNumber x) field_name allow_zero) = true
    <-> is_nan x = true
        \/ ltb (of_Z 0) x = true
        \/ allow_zero = true /\ eqb x (of_Z 0) = true.
Proof.
  intros x field_name allow_zero. unfold validate_positive_number, is_nan.
  rewrite float_ltb_zero, float_gtb_zero, float_eqb_zero.
  destruct (Prim2SF x) as [s|s| |s m e]; try destruct s; destruct allow_zero; cbn;
    split; auto; intros [E|[E|[E1 E2]]]; discriminate.
Qed.

Lemma Q_ltb_false (x y : Q) : ltb x y = false <-> (y <= x)%Q.
Proof.
  split.
  - intro E. destruct (Qlt_le_dec x y) as [Hl|Hl]; [|exact Hl].
    assert (E' : ltb x y = true) by (apply Q_ltb_true; exact Hl). congruence.
  - intro Hle. destruct (ltb x y) eqn:E; [|reflexivity].
    apply Q_ltb_true in E. exfalso. apply (Qlt_not_le _ _ E Hle).
Qed.

Lemma py_in_iff {F : Type} `{Number F} (x : F) (l : list Z) :
  py_in x l = true <-> exists k, In k l /\ eqb x (of_Z k) = true.
Proof. unfold py_in. apply existsb_exists. Qed.

(** The verdict of [validate_gst_rate] on a number, by its three tests. *)
Lemma validate_gst_rate_tests {F : Type} `{Number F} (x : F) :
  fst (validate_gst_rate (PyNumber x)) = true
  <-> ltb x (of_Z 0) = false /\ gtb x (of_Z 28) = false /\ py_in x valid_rates = true.
Proof.
  unfold validate_gst_rate.
  destruct (ltb x (of_Z 0)), (gtb x (of_Z 28)), (py_in x valid_rates); cbn;
    split; auto; intros (E1 & E2 & E3); discriminate.
Qed.

(** X3.  [validate_gst_rate] accepts exactly the numbers equal to a rate of the
    schedule 0, 5, 12, 18, 28, in exact arithmetic and on binary64 (where
    a zero of either sign equals 0): the two range tests before the
    membership test refuse no rate of the schedule.  A value that is no
    number is refused. *)
Theorem validate_gst_rate_schedule :
  (forall x : Q,
     fst (validate_gst_rate (PyNumber x)) = true
     <-> exists k, In k valid_rates /\ (x == inject_Z k)%Q)
  /\ (forall x : float,
        fst (validate_gst_rate (PyNumber x)) = true
        <-> exists k, In k valid_rates /\ eqb x (of_Z k) = true)
  /\ (forall (F : Type) (N : Number F),
        fst (validate_gst_rate (@PyNonNumeric F)) = false).
Proof.
  split; [|split].
  - intro x. rewrite validate_gst_rate_tests, py_in_iff. split.
    + intros (_ & _ & k & Hin & E). exists k. split; [exact Hin|].
      apply Q_eqb_true in E. exact E.
    + intros (k & Hin & E).
      assert (Hk : (0 <= x /\ x <= 28)%Q).
      { repeat (destruct Hin as [<-|Hin]; [cbv [inject_Z] in E; lra|]). destruct Hin. }
      split; [apply Q_ltb_false; apply Hk|].
      split; [apply Q_ltb_false; apply Hk|].
      exists k. split; [exact Hin|]. apply Q_eqb_true. exact E.
  - intro x. rewrite validate_gst_rate_tests, py_in_iff. split.
    + intros (_ & _ & Hk). exact Hk.
    + intros (k & Hin & E).
      assert (Hx : ltb x (of_Z 0) = false /\ gtb x (of_Z 28) = false).
      { destruct Hin as [<-|Hin].
        - rewrite float_eqb_zero in E. split; [rewrite float_ltb_zero|].
          + destruct (Prim2SF x) as [s|s| |s m e]; try discriminate E. reflexivity.
          + unfold gtb. change (ltb (of_Z 28) x) with (PrimFloat.ltb (of_Z 28) x).
            rewrite FloatAxioms.ltb_spec.
            destruct (Prim2SF x) as [s|s| |s m e]; try discriminate E. reflexivity.
        - repeat (destruct Hin as [<-|Hin];
                  [float_constant E; split; vm_compute; reflexivity|]).
          destruct Hin. }
      destruct Hx as [H0 H28]. split; [exact H0|]. split; [exact H28|].
      exists k. auto.
  - reflexivity.
Qed.


(** ** GST: further facts *)


(** X6.  The jurisdiction does not depend on the direction of the supply:
    exchanging the two states gives the same answer. *)
Theorem determine_interstate_symmetric :
  forall (S : StrOps) (transaction_type from_state to_state : string),
    determine_interstate transaction_type from_state to_state
    = determine_interstate transaction_type to_state from_state.
Proof.
  intros S transaction_type from_state to_state. unfold determine_interstate.
  rewrite (andb_comm (nonempty from_state)),
    (String.eqb_sym (lower (strip from_state))).
  reflexivity.
Qed.







(** X8.  The grand total of an amount inclusive of GST is the amount entered:
    up to equality of rationals in exact arithmetic, and bit for bit on
    binary64 for every finite amount the form accepts (0.01 and above), at
    every rate of the schedule. *)
Theorem inclusive_total_is_amount :
  (forall (S : StrOps) (amount : Q) (rate : Z)
          (transaction_type from_state to_state : string) (reverse_charge : bool),
     In rate legal_rates ->
     exists r,
       calculate_and_display_gst amount rate "Inclusive of GST" transaction_type
         from_state to_state reverse_charge = Ok r
       /\ (total_amount r == amount)%Q)
  /\ (forall (S : StrOps) (amount : float) (rate : Z)
             (transaction_type from_state to_state : string) (reverse_charge : bool),
        leb tol amount = true -> finite amount = true -> In rate legal_rates ->
        exists r,
          calculate_and_display_gst amount rate "Inclusive of GST" transaction_type
            from_state to_state reverse_charge = Ok r
          /\ total_amount r = amount).
Proof.
  split.
  - intros S amount rate transaction_type from_state to_state reverse_charge Hin.
    destruct (calculate_gst_ok amount rate "Inclusive of GST" transaction_type
                from_state to_state reverse_charge
                (Q_divisor_nonzero rate (legal_rate_nonneg rate Hin)))
      as (r & E & _).
    exists r. split; [exact E|].
    destruct (Q_gst_amounts _ _ _ _ _ _ _ _ E (legal_rate_nonneg rate Hin))
      as (_ & Hg & Ht).
    cbn [String.eqb Ascii.eqb Bool.eqb] in Hg. rewrite Ht, Hg. ring.
  - intros S amount rate transaction_type from_state to_state reverse_charge
      Hle Hfin Hin.
    destruct Hin as [<-|Hin].
    + destruct (float_form_amount amount Hle Hfin) as (ma & ea & Ha & _).
      destruct (float_finite_positive amount ma ea Ha) as [Hpos _].
      eexists. split; [apply float_zero_rate; assumption|]. reflexivity.
    + destruct (float_inclusive_parts amount rate Hle Hfin Hin) as (b & Eb & _ & _ & Hsum).
      unfold calculate_and_display_gst, gst_amounts.
      cbn [String.eqb Ascii.eqb Bool.eqb]. rewrite Eb. cbn [bind].
      destruct (gst_split _ _) as [[c s] i].
      eexists. split; [reflexivity|]. exact Hsum.
Qed.

(** ₹1,180 inclusive of 18% on binary64: the grand total is 1,180 again. *)
Lemma inclusive_total_is_amount_witness :
  exists r,
    calculate_and_display_gst (of_Z 1180 : float) 18 "Inclusive of GST"
      "Intrastate (Within State)" "" "" false = Ok r
    /\ total_amount r = of_Z 1180.
Proof.
  refine (proj2 inclusive_total_is_amount ascii_str_ops (of_Z 1180) 18%Z
            "Intrastate (Within State)" "" "" false _ _ _).
  - vm_compute. reflexivity.
  - vm_compute. reflexivity.
  - vm_compute. auto.
Defined.



(** ** The summary table of the solver *)

Section SummaryFacts.
Context {F : Type} `{Number F}.
Local Open Scope num_scope.

Lemma supplied_truthy (x : F) : supplied (Some x) = truthy x.
Proof. reflexivity. Qed.

(** Behind its guard, [x or solution[key]] finds a value. *)
Lemma guarded_getitem (x entry : option F) (key : string) :
  otruthy x || contains entry = true -> exists v, or_getitem x entry key = Item v.
Proof.
  unfold or_getitem, getitem, otruthy, contains.
  destruct x as [v|]; [destruct (truthy v)|]; destruct entry as [w|]; cbn;
    intro E; try discriminate E; eauto.
Qed.

End SummaryFacts.

(** X10.  [create_equation_summary_table] never raises [KeyError], whatever the
    arguments: each subscript of [solution] is evaluated only after the
    test that the key is in the dict or that the given value is not zero.
    The table has at most four rows. *)
Theorem summary_table_never_raises :
  forall (F : Type) (N : Number F) (assets liabilities capital : option F)
         (solution : solution_dict) (adjusted_capital : option F),
    exists rows,
      create_equation_summary_table assets liabilities capital solution
        adjusted_capital = Item rows
      /\ (List.length rows <= 4)%nat.
Proof.
  intros F N assets liabilities capital solution adjusted.
  unfold create_equation_summary_table.
  destruct (otruthy assets || contains (sol_assets solution)) eqn:G1;
    [destruct (guarded_getitem _ _ "Assets" G1) as [v1 E1]; rewrite E1|];
    cbn [subscript_bind];
    (destruct (otruthy liabilities || contains (sol_liabilities solution)) eqn:G2;
     [destruct (guarded_getitem _ _ "Liabilities" G2) as [v2 E2]; rewrite E2|];
     cbn [subscript_bind]);
    (destruct (otruthy capital || contains (sol_original_capital solution)) eqn:G3;
     [destruct (guarded_getitem _ _ "Original Capital" G3) as [v3 E3]; rewrite E3|];
     cbn [subscript_bind]);
    (destruct (otruthy adjusted || contains (sol_adjusted_capital solution)) eqn:G4;
     [destruct (guarded_getitem _ _ "Adjusted Capital" G4) as [v4 E4]; rewrite E4|];
     cbn [subscript_bind]);
    eexists; (split; [reflexivity|]); cbn [List.length app]; lia.
Qed.

(** X11.  The table of a run that computes the missing term, in every
    arithmetic.  With two terms given (not zero) and the third left empty
    the first three rows are Assets, Liabilities and Capital (Original) in
    that order, the computed one marked [Calculated] and the other two
    [Given].  The row of the adjusted capital follows: always when the
    capital was computed, and only when the adjusted capital is not zero
    when the capital was given. *)
Theorem summary_of_solved_equation :
  forall (F : Type) (N : Number F) (drawings additional_capital profit_loss : F),
    (forall l c, supplied (Some l) = true -> supplied (Some c) = true ->
       solve_equation_summary None (Some l) (Some c)
         drawings additional_capital profit_loss
       = Some (Item
           ([calculated_row "Assets"
               (l + (c + additional_capital - drawings + profit_loss))%num;
             given_line "Liabilities" l;
             given_line "Capital (Original)" c]
            ++ adjusted_row (c + additional_capital - drawings + profit_loss)%num)%list))
    /\ (forall a c, supplied (Some a) = true -> supplied (Some c) = true ->
       solve_equation_summary (Some a) None (Some c)
         drawings additional_capital profit_loss
       = Some (Item
           ([given_line "Assets" a;
             calculated_row "Liabilities"
               (a - (c + additional_capital - drawings + profit_loss))%num;
             given_line "Capital (Original)" c]
            ++ adjusted_row (c + additional_capital - drawings + profit_loss)%num)%list))
    /\ (forall a l, supplied (Some a) = true -> supplied (Some l) = true ->
       solve_equation_summary (Some a) (Some l) None
         drawings additional_capital profit_loss
       = Some (Item
           [given_line "Assets" a;
            given_line "Liabilities" l;
            calculated_row "Capital (Original)"
              (a - l - additional_capital + drawings - profit_loss)%num;
            calculated_row "Capital (Adjusted)" (a - l)%num])).
Proof.
  intros F N drawings additional_capital profit_loss. split; [|split].
  - intros l c Hl Hc. unfold solve_equation_summary.
    rewrite solve_assets_absent by assumption.
    rewrite supplied_truthy in Hl, Hc.
    cbn [solution adjusted_capital].
    unfold create_equation_summary_table, given_or_calculated.
    cbn [otruthy contains sol_assets sol_liabilities sol_original_capital
         sol_adjusted_capital or_getitem getitem orb subscript_bind].
    rewrite Hl, Hc. cbn [orb subscript_bind]. unfold adjusted_row.
    destruct (truthy (c + additional_capital - drawings + profit_loss)%num);
      reflexivity.
  - intros a c Ha Hc. unfold solve_equation_summary.
    rewrite solve_liabilities_absent by assumption.
    rewrite supplied_truthy in Ha, Hc.
    cbn [solution adjusted_capital].
    unfold create_equation_summary_table, given_or_calculated.
    cbn [otruthy contains sol_assets sol_liabilities sol_original_capital
         sol_adjusted_capital or_getitem getitem orb subscript_bind].
    rewrite Ha, Hc. cbn [orb subscript_bind]. unfold adjusted_row.
    destruct (truthy (c + additional_capital - drawings + profit_loss)%num);
      reflexivity.
  - intros a l Ha Hl. unfold solve_equation_summary.
    rewrite solve_capital_absent by assumption.
    rewrite supplied_truthy in Ha, Hl.
    cbn [solution adjusted_capital].
    unfold create_equation_summary_table, given_or_calculated.
    cbn [otruthy contains sol_assets sol_liabilities sol_original_capital
         sol_adjusted_capital or_getitem getitem orb subscript_bind].
    rewrite Ha, Hl. reflexivity.
Qed.

(** X12.  With all three terms present in their inputs, at least two of them not
    zero, the solver computes no term (the dict [solution] stays empty)
    and the table shows only what was given: a row marked [Given] for each
    term that is not zero, and the adjusted capital when it is not zero.
    A term entered as 0 is neither computed nor shown.  This holds in
    every arithmetic. *)
Theorem summary_when_all_given :
  forall (F : Type) (N : Number F)
         (a l c drawings additional_capital profit_loss : F),
    (2 <= known_values (Some a) (Some l) (Some c))%nat ->
    exists out,
      solve_equation (Some a) (Some l) (Some c)
        drawings additional_capital profit_loss = Solved out
      /\ solution out = empty_solution
      /\ adjusted_capital out
         = Some (c + additional_capital - drawings + profit_loss)%num
      /\ solve_equation_summary (Some a) (Some l) (Some c)
           drawings additional_capital profit_loss
         = Some (Item
             (given_row "Assets" a ++ given_row "Liabilities" l
              ++ given_row "Capital (Original)" c
              ++ adjusted_row (c + additional_capital - drawings + profit_loss)%num)%list).
Proof.
  intros F N a l c drawings additional_capital profit_loss Hk.
  assert (Hg : (known_values (Some a) (Some l) (Some c) <? 2)%nat = false)
    by (apply Nat.ltb_ge; exact Hk).
  unfold solve_equation_summary, solve_equation. rewrite Hg.
  eexists. split; [reflexivity|].
  cbn [solution adjusted_capital adjust_capital apply_equation].
  split; [reflexivity|]. split; [reflexivity|].
  unfold create_equation_summary_table, given_or_calculated, given_row, adjusted_row.
  cbn [otruthy contains sol_assets sol_liabilities sol_original_capital
       sol_adjusted_capital empty_solution or_getitem getitem].
  destruct (truthy a), (truthy l), (truthy c),
    (truthy (c + additional_capital - drawings + profit_loss)%num); reflexivity.
Qed.

(** Assets entered as 0 with liabilities 50,000 and capital 1,50,000, on
    binary64: nothing is computed, and the table has no row for the
    assets. *)
Lemma summary_when_all_given_witness :
  exists out,
    solve_equation (Some (of_Z 0 : float)) (Some (of_Z 50000)) (Some (of_Z 150000))
      (of_Z 0) (of_Z 0) (of_Z 0) = Solved out
    /\ solution out = empty_solution
    /\ adjusted_capital out
       = Some (of_Z 150000 + of_Z 0 - of_Z 0 + of_Z 0)%num
    /\ solve_equation_summary (Some (of_Z 0 : float)) (Some (of_Z 50000))
         (Some (of_Z 150000)) (of_Z 0) (of_Z 0) (of_Z 0)
       = Some (Item
           (given_row "Assets" (of_Z 0 : float) ++ given_row "Liabilities" (of_Z 50000 : float)
            ++ given_row "Capital (Original)" (of_Z 150000 : float)
            ++ adjusted_row (of_Z 150000 + of_Z 0 - of_Z 0 + of_Z 0 : float)%num)%list).
Proof.
  refine (summary_when_all_given float float_number (of_Z 0) (of_Z 50000)
            (of_Z 150000) (of_Z 0) (of_Z 0) (of_Z 0) _).
  vm_compute. lia.
Defined.

(** ** The journal table *)

Section JournalTableFacts.
Context {F : Type} `{Number F}.

(** Once a row is in the table, the loop adds rows with an empty date. *)
Lemma journal_rows_from (date_text : string) (entries : list (posting F))
    (journal_data : list journal_row) :
  journal_data <> [] ->
  fold_left
    (fun journal_data entry =>
       journal_data ++ [{| Date := if is_empty journal_data then date_text else "";
                           Particulars := Account entry;
                           Dr_text := amount_cell (Dr_Amount entry);
                           Cr_text := amount_cell (Cr_Amount entry) |}])%list
    entries journal_data
  = (journal_data ++ map (journal_line "") entries)%list.
Proof.
  revert journal_data. induction entries as [|e entries IH]; intros journal_data Hne.
  - cbn. rewrite app_nil_r. reflexivity.
  - cbn [fold_left map]. rewrite IH.
    + rewrite <- app_assoc. destruct journal_data; [contradiction|reflexivity].
    + destruct journal_data; discriminate.
Qed.

Lemma journal_rows_first (date_text : string) (e : posting F)
    (entries : list (posting F)) :
  journal_rows date_text (e :: entries)
  = journal_line date_text e :: map (journal_line "") entries.
Proof.
  unfold journal_rows. cbn [fold_left app is_empty].
  rewrite journal_rows_from by discriminate. reflexivity.
Qed.

(** With the symbol, [format_currency] never returns the empty text. *)
Lemma format_currency_nonempty (amount : py_amount F) :
  nonempty (format_currency amount true) = true.
Proof.
  unfold format_currency, zero_rendering.
  destruct amount as [x|]; [|reflexivity].
  destruct (eqb x (of_Z 0)); [reflexivity|].
  destruct (ltb x (of_Z 0)); reflexivity.
Qed.

End JournalTableFacts.

(** X13.  The layout of the journal table, in every arithmetic: one row per
    posting in the order of the entries, with the date in the first row
    only, then the row of the narration in brackets and the row of the
    totals; the table of an empty entry has these last two rows alone. *)
Theorem journal_table_layout :
  forall (F : Type) (N : Number F) (date_text : string)
         (entries : list (posting F)) (narration : string),
    journal_table date_text entries narration
    = (match entries with
       | [] => []
       | first :: rest => journal_line date_text first :: map (journal_line "") rest
       end
       ++ [{| Date := ""; Particulars := ("(" ++ narration ++ ")")%string;
              Dr_text := ""; Cr_text := "" |};
           {| Date := ""; Particulars := "**TOTAL**";
              Dr_text := ("**" ++ format_currency (PyNumber (total Dr_Amount entries)) true
                          ++ "**")%string;
              Cr_text := ("**" ++ format_currency (PyNumber (total Cr_Amount entries)) true
                          ++ "**")%string |}])%list
    /\ List.length (journal_table date_text entries narration)
       = (List.length entries + 2)%nat
    /\ map Particulars (journal_table date_text entries narration)
       = (map Account entries ++ [("(" ++ narration ++ ")")%string; "**TOTAL**"])%list.
Proof.
  intros F N date_text entries narration. unfold journal_table.
  destruct entries as [|e entries].
  - repeat split; reflexivity.
  - rewrite journal_rows_first. split; [reflexivity|]. split.
    + rewrite length_app. cbn [List.length]. rewrite length_map. lia.
    + rewrite map_app. cbn [map Particulars journal_line]. rewrite map_map.
      reflexivity.
Qed.

(** X14.  A cell of the amount columns is blank exactly when the amount is not
    above zero (every arithmetic): an amount above zero is never rendered
    as the empty text.  So the row of a debit of an amount above zero
    shows that amount on the debit side and a blank on the credit side,
    and the row of a credit the reverse, in exact arithmetic and on
    binary64. *)
Theorem journal_cells :
  (forall (F : Type) (N : Number F) (x : F),
     amount_cell x = "" <-> gtb x (of_Z 0) = false)
  /\ (forall (date_cell account : string) (x : Q),
        gtb x (of_Z 0) = true ->
        journal_line date_cell (debit account x)
        = {| Date := date_cell; Particulars := account;
             Dr_text := format_currency (PyNumber x) true; Cr_text := "" |}
        /\ journal_line date_cell (credit account x)
           = {| Date := date_cell; Particulars := account;
                Dr_text := ""; Cr_text := format_currency (PyNumber x) true |})
  /\ (forall (date_cell account : string) (x : float),
        gtb x (of_Z 0) = true ->
        journal_line date_cell (debit account x)
        = {| Date := date_cell; Particulars := account;
             Dr_text := format_currency (PyNumber x) true; Cr_text := "" |}
        /\ journal_line date_cell (credit account x)
           = {| Date := date_cell; Particulars := account;
                Dr_text := ""; Cr_text := format_currency (PyNumber x) true |}).
Proof.
  split; [|split].
  - intros F N x. unfold amount_cell. destruct (gtb x (of_Z 0)).
    + split; [|discriminate]. intro E.
      pose proof (format_currency_nonempty (PyNumber x)) as Hn.
      rewrite E in Hn. discriminate.
    + split; reflexivity.
  - intros date_cell account x Hx. unfold journal_line, debit, credit, amount_cell.
    cbn [Account Dr_Amount Cr_Amount]. rewrite Hx. split; reflexivity.
  - intros date_cell account x Hx. unfold journal_line, debit, credit, amount_cell.
    cbn [Account Dr_Amount Cr_Amount]. rewrite Hx. split; reflexivity.
Qed.

(** A debit of ₹1,180 on binary64. *)
Lemma journal_cells_witness :
  journal_line "04-11-2026" (debit "Goods Purchase" (of_Z 1180 : float))
  = {| Date := "04-11-2026"; Particulars := "Goods Purchase";
       Dr_text := format_currency (PyNumber (of_Z 1180 : float)) true; Cr_text := "" |}
  /\ journal_line "04-11-2026" (credit "Goods Purchase" (of_Z 1180 : float))
     = {| Date := "04-11-2026"; Particulars := "Goods Purchase";
          Dr_text := ""; Cr_text := format_currency (PyNumber (of_Z 1180 : float)) true |}.
Proof.
  refine (proj2 (proj2 journal_cells) "04-11-2026" "Goods Purchase" (of_Z 1180) _).
  vm_compute. reflexivity.
Defined.

(** ** The custom entry form *)

Section CustomFormFacts.
Context {F : Type} `{Number F}.

Lemma pop_firstn_skipn {A} (i : nat) (l : list A) :
  pop i l = (firstn i l ++ skipn (S i) l)%list.
Proof.
  revert i. induction l as [|a l IH]; intro i.
  - destruct i; reflexivity.
  - destruct i as [|i]; [reflexivity|].
    cbn [pop firstn app]. rewrite IH. reflexivity.
Qed.

Lemma pop_last {A} (l : list A) (a : A) : pop (List.length l) (l ++ [a]) = l.
Proof.
  induction l as [|b l IH]; [reflexivity|].
  cbn [List.length app pop]. rewrite IH. reflexivity.
Qed.

Lemma pop_Forall {A} (P : A -> Prop) (i : nat) (l : list A) :
  Forall P l -> Forall P (pop i l).
Proof.
  intro Hl. revert i. induction Hl as [|a l Ha Hl IH]; intro i.
  - destruct i; constructor.
  - destruct i as [|i]; [exact Hl|]. cbn [pop]. constructor; [exact Ha|apply IH].
Qed.

(** One run keeps the postings of the list well formed. *)
Lemma custom_step_form_posting (entries : list (posting F)) (ev : custom_event) :
  from_select_box ev -> Forall form_posting entries ->
  Forall form_posting (fst (custom_step entries ev)).
Proof.
  intros Hev Hl. destruct ev as [account_name entry_type entry_amount|i|].
  - cbn [custom_step].
    destruct (nonempty account_name) eqn:Hn; [|exact Hl].
    destruct (gtb entry_amount (of_Z 0)) eqn:Hg; [|exact Hl].
    cbn [andb fst]. apply Forall_app. split; [exact Hl|].
    constructor; [|constructor].
    split; [exact Hn|]. cbn [Dr_Amount Cr_Amount].
    destruct Hev as [->| ->]; cbn; auto.
  - cbn [custom_step].
    destruct (i <? List.length entries)%nat; [|exact Hl].
    apply pop_Forall. exact Hl.
  - cbn [custom_step]. destruct entries as [|e entries]; [exact Hl|].
    destruct (balanced _ _); [constructor|exact Hl].
Qed.

End CustomFormFacts.

(** X15.  The list of the custom entry form stays well formed over a whole
    session, in every arithmetic: starting from the empty list (or any
    well-formed list), after any series of Add, delete and Generate
    presses each posting has a named account and an amount above zero on
    exactly one side, with the literal 0 on the other.  Add refuses an
    empty account name and an amount that is not above zero. *)
Theorem custom_session_invariant :
  forall (F : Type) (N : Number F) (events : list custom_event)
         (entries : list (posting F)),
    Forall from_select_box events -> Forall form_posting entries ->
    Forall form_posting (custom_session entries events).
Proof.
  intros F N events. unfold custom_session.
  induction events as [|ev events IH]; intros entries Hev Hl; [exact Hl|].
  cbn [fold_left]. inversion Hev as [|ev' events' Hev1 Hev2]; subst.
  apply IH; [exact Hev2|]. apply custom_step_form_posting; assumption.
Qed.

(** A session on binary64: a debit and a credit of ₹500 are added, an
    entry without a name is refused, and the first posting is deleted. *)
Lemma custom_session_invariant_witness :
  Forall form_posting
    (custom_session []
       [AddEntry "Cash" "Debit" (of_Z 500 : float);
        AddEntry "" "Credit" (of_Z 500);
        AddEntry "To Sales" "Credit" (of_Z 500);
        DeleteEntry 0;
        GenerateCustomEntry]).
Proof.
  apply (custom_session_invariant float float_number).
  - repeat (constructor; [cbn; auto|]). constructor.
  - constructor.
Defined.

(** X16.  Deleting removes the posting at the index of the button pressed and
    keeps the others in their order; an index outside the list changes
    nothing and reports nothing. *)
Theorem delete_entry_removes_one :
  forall (F : Type) (N : Number F) (entries : list (posting F)) (i : nat),
    fst (custom_step entries (DeleteEntry i))
    = (firstn i entries ++ skipn (S i) entries)%list
    /\ List.length (fst (custom_step entries (DeleteEntry i)))
       = (List.length entries - (if (i <? List.length entries)%nat then 1 else 0))%nat
    /\ snd (custom_step entries (DeleteEntry i))
       = (if (i <? List.length entries)%nat then Deleted else Nothing).
Proof.
  intros F N entries i. cbn [custom_step].
  destruct (i <? List.length entries)%nat eqn:Ei; cbn [fst snd].
  - apply Nat.ltb_lt in Ei. rewrite pop_firstn_skipn. split; [reflexivity|].
    split; [|reflexivity].
    rewrite length_app, length_firstn, length_skipn. lia.
  - apply Nat.ltb_ge in Ei. split; [|split; [lia|reflexivity]].
    rewrite firstn_all2 by exact Ei. rewrite skipn_all2 by lia.
    rewrite app_nil_r. reflexivity.
Qed.

(** X17.  Adding an entry and deleting the last row gives the list back: an
    accepted entry is appended at the end, and its delete button removes
    it again (every arithmetic). *)
Theorem add_then_delete_restores :
  forall (F : Type) (N : Number F) (entries : list (posting F))
         (account_name entry_type : string) (entry_amount : F),
    nonempty account_name = true -> gtb entry_amount (of_Z 0) = true ->
    exists entry,
      custom_step entries (AddEntry account_name entry_type entry_amount)
      = ((entries ++ [entry])%list, Added)
      /\ Account entry = account_name
      /\ custom_step (entries ++ [entry])%list (DeleteEntry (List.length entries))
         = (entries, Deleted).
Proof.
  intros F N entries account_name entry_type entry_amount Hn Hg.
  eexists. cbn [custom_step]. rewrite Hn, Hg. cbn [andb].
  split; [reflexivity|]. split; [reflexivity|].
  rewrite length_app. cbn [List.length].
  assert (Hlt : (List.length entries <? List.length entries + 1)%nat = true)
    by (apply Nat.ltb_lt; lia).
  rewrite Hlt, pop_last. reflexivity.
Qed.

(** A credit of ₹250.50 added to a list of one debit, on binary64. *)
Lemma add_then_delete_restores_witness :
  exists entry,
    custom_step [debit "Cash" (of_Z 500 : float)]
      (AddEntry "To Sales" "Credit" (0x1.f5p+7)%float)
    = ([debit "Cash" (of_Z 500 : float); entry], Added)
    /\ Account entry = "To Sales"
    /\ custom_step [debit "Cash" (of_Z 500 : float); entry] (DeleteEntry 1)
       = ([debit "Cash" (of_Z 500 : float)], Deleted).
Proof.
  refine (add_then_delete_restores float float_number [debit "Cash" (of_Z 500)]
            "To Sales" "Credit" (0x1.f5p+7)%float _ _).
  - reflexivity.
  - vm_compute. reflexivity.
Defined.

(** ** Totals and the order of the postings *)

Lemma Q_fold_total (key : posting Q -> Q) (l : list (posting Q)) (acc : Q) :
  (fold_left (fun acc e => add acc (key e)) l acc
   == acc + fold_left (fun acc e => add acc (key e)) l (of_Z 0))%Q.
Proof.
  revert acc. induction l as [|e l IH]; intro acc; cbn [fold_left].
  - q_ops. change (inject_Z 0) with 0%Q. ring.
  - rewrite (IH (add acc (key e))), (IH (add (of_Z 0) (key e))).
    q_ops. change (inject_Z 0) with 0%Q. ring.
Qed.

Lemma Q_total_cons (key : posting Q -> Q) (e : posting Q) (l : list (posting Q)) :
  (total key (e :: l) == key e + total key l)%Q.
Proof.
  unfold total. cbn [fold_left]. rewrite Q_fold_total.
  q_ops. change (inject_Z 0) with 0%Q. ring.
Qed.

Lemma Q_total_permutation (key : posting Q -> Q) (l l' : list (posting Q)) :
  Permutation l l' -> (total key l == total key l')%Q.
Proof.
  intro Hp. induction Hp as [|x l l' Hp IH|x y l|l l' l'' Hp1 IH1 Hp2 IH2].
  - reflexivity.
  - rewrite !Q_total_cons, IH. reflexivity.
  - rewrite !Q_total_cons. ring.
  - rewrite IH1. exact IH2.
Qed.

Lemma Q_balanced_compat (dr dr' cr cr' : Q) :
  (dr == dr')%Q -> (cr == cr')%Q -> balanced dr cr = balanced dr' cr'.
Proof.
  intros Hd Hc. unfold balanced.
  destruct (ltb (abs (sub dr' cr')) tol) eqn:E.
  - apply Q_ltb_true. apply Q_ltb_true in E. q_ops. rewrite Hd, Hc. exact E.
  - apply Q_ltb_false. apply Q_ltb_false in E. q_ops. rewrite Hd, Hc. exact E.
Qed.

(** X18.  In exact arithmetic the totals and the verdict of a journal entry do
    not depend on the order of its postings.  On binary64 they do: the
    debits 2^53, 1 and 1 against a credit of 2^53 + 2 are reported as not
    balanced in that order (each 1 is lost in the running sum), and as
    balanced when the two small debits come first. *)
Theorem balance_and_posting_order :
  (forall l l' : list (posting Q),
     Permutation l l' ->
     (total_dr (display_journal_entry l) == total_dr (display_journal_entry l'))%Q
     /\ (total_cr (display_journal_entry l) == total_cr (display_journal_entry l'))%Q
     /\ report (display_journal_entry l) = report (display_journal_entry l'))
  /\ (exists l l' : list (posting float),
        Permutation l l'
        /\ report (display_journal_entry l) = NotBalanced
        /\ report (display_journal_entry l') = Balanced).
Proof.
  split.
  - intros l l' Hp. unfold display_journal_entry.
    cbn [total_dr total_cr report].
    pose proof (Q_total_permutation Dr_Amount l l' Hp) as Hd.
    pose proof (Q_total_permutation Cr_Amount l l' Hp) as Hc.
    split; [exact Hd|]. split; [exact Hc|].
    rewrite (Q_balanced_compat _ _ _ _ Hd Hc). reflexivity.
  - exists [debit "Plant" (of_Z 9007199254740992); debit "Cash" (of_Z 1);
            debit "Bank" (of_Z 1); credit "To Capital" (of_Z 9007199254740994)].
    exists [debit "Cash" (of_Z 1); debit "Bank" (of_Z 1);
            debit "Plant" (of_Z 9007199254740992);
            credit "To Capital" (of_Z 9007199254740994)].
    split; [|split; vm_compute; reflexivity].
    apply perm_trans with
      (l' := [debit "Cash" (of_Z 1); debit "Plant" (of_Z 9007199254740992);
              debit "Bank" (of_Z 1); credit "To Capital" (of_Z 9007199254740994)]).
    + apply perm_swap.
    + apply perm_skip. apply perm_swap.
Qed.

(** A sale of ₹1,180 with its two credits in either order, in exact
    arithmetic. *)
Lemma balance_and_posting_order_witness :
  report (display_journal_entry
            [debit "Cash/Bank" (1180 # 1)%Q; credit "To Goods Sales" (1000 # 1)%Q;
             credit "To Output GST" (180 # 1)%Q])
  = report (display_journal_entry
              [debit "Cash/Bank" (1180 # 1)%Q; credit "To Output GST" (180 # 1)%Q;
               credit "To Goods Sales" (1000 # 1)%Q]).
Proof.
  refine (proj2 (proj2 (proj1 balance_and_posting_order _ _ _))).
  apply perm_skip. apply perm_swap.
Defined.

(** ** Currency formatting: signs and rounding at the unit boundaries *)














(** ** The solver run backwards *)



(** ** The shape of a predefined entry *)

Section HandlerShape.
Context {F : Type} `{Number F}.

Lemma debit_is_debit_line (account : string) (x : F) : debit_line (debit account x).
Proof. reflexivity. Qed.

Lemma credit_is_credit_line (account : string) (x : F) :
  credit_line (credit ("To " ++ account) x).
Proof. split; [reflexivity|]. cbn. destruct account; reflexivity. Qed.

End HandlerShape.

Ltac credit_line_tac :=
  split;
  [reflexivity
  |cbn; first [reflexivity
              |match goal with
               | |- String.prefix _ ?s = true => destruct s; reflexivity
               end]].

Ltac entry_split ds cs :=
  exists ds, cs;
  split; [reflexivity|];
  split; [repeat constructor|];
  split; [repeat (constructor; [credit_line_tac|]); constructor|];
  split; [discriminate|];
  split; [discriminate|];
  cbn [List.length]; lia.

Ltac entry_shape :=
  match goal with
  | |- exists ds cs, [?a; ?b; ?c] = _ /\ _ =>
      first [entry_split [a; b] [c] | entry_split [a] [b; c]]
  | |- exists ds cs, [?a; ?b] = _ /\ _ => entry_split [a] [b]
  end.

(** X23.  Every entry a predefined handler builds has the shape of a journal
    entry, in every arithmetic: its debit lines come first, each with the
    literal 0 as credit; its credit lines follow, each with the literal 0
    as debit and an account that starts with ["To "]; there is at least
    one line of each kind and there are two or three lines in all. *)
Theorem predefined_entry_shape :
  forall (F : Type) (N : Number F) (transaction_type : string) (w : widgets)
         (amount : F) (entries : list (posting F)),
    create_predefined_entry transaction_type w amount = Some (Ok entries) ->
    exists debits credits,
      entries = (debits ++ credits)%list
      /\ Forall debit_line debits /\ Forall credit_line credits
      /\ debits <> [] /\ credits <> []
      /\ (2 <= List.length entries <= 3)%nat.
Proof.
  intros F N transaction_type w amount entries.
  unfold create_predefined_entry.
  repeat match goal with
         | |- (if ?b then _ else _) = _ -> _ => destruct b
         end; try discriminate; intro E; injection E as E.
  - unfold handle_cash_bank_transaction in E.
    destruct (String.eqb (transaction_nature w) "Receipt"); injection E as <-;
      entry_shape.
  - unfold handle_purchase_transaction, pdiv in E.
    destruct (include_gst w);
      [destruct (eqb _ _); [discriminate E|]|]; cbn [bind app] in E;
      destruct (String.eqb (purchase_type w) "Credit Purchase"); injection E as <-;
      entry_shape.
  - unfold handle_sales_transaction, pdiv in E.
    destruct (String.eqb (sales_type w) "Credit Sales");
      (destruct (include_gst w);
       [destruct (eqb _ _); [discriminate E|]|]); cbn [bind app] in E;
      injection E as <-; entry_shape.
  - unfold handle_expense_transaction in E.
    destruct (String.eqb (payment_method w) "Credit"); cbn [app] in E;
      injection E as <-; entry_shape.
  - unfold handle_income_transaction in E. try injection E as E. subst entries.
    entry_shape.
  - unfold handle_capital_transaction in E.
    destruct (_ || _); injection E as <-; entry_shape.
Qed.

(** A credit purchase of goods for ₹1,180 with GST at 18%, on binary64:
    two debit lines and one credit line. *)
Lemma predefined_entry_shape_witness :
  exists entries debits credits,
    create_predefined_entry "Purchase Transaction" purchase_widgets
      (of_Z 1180 : float) = Some (Ok entries)
    /\ entries = (debits ++ credits)%list
    /\ Forall debit_line debits /\ Forall credit_line credits
    /\ debits <> [] /\ credits <> []
    /\ (2 <= List.length entries <= 3)%nat.
Proof.
  eexists.
  assert (E : create_predefined_entry "Purchase Transaction" purchase_widgets
                (of_Z 1180 : float) = Some (Ok _)) by (vm_compute; reflexivity).
  destruct (predefined_entry_shape float float_number _ _ _ _ E)
    as (debits & credits & Hshape).
  exists debits, credits. split; [exact E|exact Hshape].
Defined.
